(** * Hotel-Management-System-Backend: admission control and activity log

    A shallow embedding of the two stateful parts of the backend:

    - the role-based rate limiting set up in the server entry file
      ([getUserRoleFromToken], [roleBasedRateLimiter], [paymentLimiter] and
      the way they are mounted with [app.use]);
    - the in-memory activity logger ([activityLogger], [logActivity],
      [getActivityLogs], [isImportantOperation]) and the admin route that
      queries it.

    Module-level mutable state (the [activities] array, the hit stores of the
    four limiters) is passed explicitly.  The clock ([Date.now()]) is an
    argument, in milliseconds.  JavaScript exceptions are values of the
    [result] type. *)

From Stdlib Require Import Ascii QArith Qround.
From stdpp Require Import gmap strings list fin_maps.

#[local] Set Warnings "-abstract-large-number".

Local Open Scope Z_scope.

(* ===================================================================== *)
(** ** JavaScript values used by the code *)
(* ===================================================================== *)

Module JS.

(** A computation that either returns or throws. *)
Inductive result (A : Type) : Type :=
| Ok (a : A)
| Throw (e : string).
Arguments Ok {A} a.
Arguments Throw {A} e.

Definition bind {A B} (m : result A) (k : A -> result B) : result B :=
  match m with
  | Ok a => k a
  | Throw e => Throw e
  end.

(** [try { body } catch (error) { handler }] *)
Definition try_catch {A} (body : result A) (handler : string -> result A)
  : result A :=
  match body with
  | Ok a => Ok a
  | Throw e => handler e
  end.

(** Truthiness of a [string | undefined]: [undefined] and [""] are falsy. *)
Definition truthy (o : option string) : bool :=
  match o with
  | Some s => negb (String.eqb s "")
  | None => false
  end.

(** [a || b] on [string | undefined] operands with a string default. *)
Definition or_default (o : option string) (d : string) : string :=
  match o with
  | Some s => if String.eqb s "" then d else s
  | None => d
  end.

(** [a || b] where both sides are [string | undefined]. *)
Definition or_else (a b : option string) : option string :=
  if truthy a then a else b.

(** [s.startsWith(p)] *)
Definition startsWith (s p : string) : bool := String.prefix p s.

(** [s.substring(n)] for [0 <= n] *)
Definition substring_from (n : nat) (s : string) : string :=
  String.substring n (String.length s - n) s.

(** [s.includes(sub)] *)
Fixpoint includes (s sub : string) : bool :=
  String.prefix sub s ||
  match s with
  | EmptyString => false
  | String _ s' => includes s' sub
  end.

(** [xs.includes(x)] on an array of strings *)
Definition array_includes (xs : list string) (x : string) : bool :=
  existsb (String.eqb x) xs.

(** JavaScript numbers, as far as the code needs them: no arithmetic is
    done on a limit except negation, [Math.min] and the integer conversion
    inside [Array.prototype.slice], all of which are exact on rationals. *)
Inductive number : Type :=
| NaN
| PosInfinity
| NegInfinity
| Num (q : Q).

Definition of_Z (z : Z) : number := Num (inject_Z z).

(** Truthiness of a number: [NaN] and [0] are falsy. *)
Definition number_truthy (n : number) : bool :=
  match n with
  | NaN => false
  | Num q => negb (Qeq_bool q 0)
  | _ => true
  end.

(** [n === 0] *)
Definition is_zero (n : number) : bool :=
  match n with
  | Num q => Qeq_bool q 0
  | _ => false
  end.

(** [a || b] on numbers *)
Definition number_or (a b : number) : number :=
  if number_truthy a then a else b.

(** [Math.min(a, b)] *)
Definition Math_min (a b : number) : number :=
  match a, b with
  | NaN, _ | _, NaN => NaN
  | NegInfinity, _ | _, NegInfinity => NegInfinity
  | PosInfinity, x | x, PosInfinity => x
  | Num p, Num q => if Qle_bool p q then Num p else Num q
  end.

(** Unary minus *)
Definition neg (a : number) : number :=
  match a with
  | NaN => NaN
  | PosInfinity => NegInfinity
  | NegInfinity => PosInfinity
  | Num q => Num (Qopp q)
  end.

(** The result of [ToIntegerOrInfinity]. *)
Inductive integer_or_infinity : Type :=
| IPosInf
| INegInf
| IInt (z : Z).

(** Truncation towards zero. *)
Definition Qtrunc (q : Q) : Z := Z.quot (Qnum q) (Z.pos (Qden q)).

(** [ToIntegerOrInfinity]: [NaN] becomes [0], finite values are truncated. *)
Definition ToIntegerOrInfinity (n : number) : integer_or_infinity :=
  match n with
  | NaN => IInt 0
  | PosInfinity => IPosInf
  | NegInfinity => INegInf
  | Num q => IInt (Qtrunc q)
  end.

(** [xs.slice(start)]: a negative start counts from the end. *)
Definition slice {A} (xs : list A) (start : number) : list A :=
  let len := Z.of_nat (length xs) in
  match ToIntegerOrInfinity start with
  | INegInf => xs
  | IPosInf => []
  | IInt k =>
      if k <? 0 then drop (Z.to_nat (Z.max (len + k) 0)) xs
      else drop (Z.to_nat (Z.min k len)) xs
  end.

(** *** [decodeURIComponent]

    The result is given as code points.  An escape [%XY] stands for one
    octet; octets of 128 and more must form well-formed UTF-8, otherwise
    the function throws a [URIError]. *)

Definition hex_digit (c : ascii) : option Z :=
  let n := Z.of_nat (nat_of_ascii c) in
  if (48 <=? n) && (n <=? 57) then Some (n - 48)
  else if (65 <=? n) && (n <=? 70) then Some (n - 55)
  else if (97 <=? n) && (n <=? 102) then Some (n - 87)
  else None.

(** What the first octet of a sequence says: it is a code point of its
    own; or [more + 1] octets must follow, the next one within [lo..hi],
    and [acc] holds its own payload bits; or no sequence starts with it
    (a continuation octet, an overlong form, a value beyond U+10FFFF). *)
Inductive first_octet_class : Type :=
| Single
| Lead (more : nat) (acc lo hi : Z)
| Invalid.

Definition first_octet (b : Z) : first_octet_class :=
  if b <? 128 then Single
  else if b <? 194 then Invalid
  else if b <? 224 then Lead 0 (b - 192) 128 191
  else if b =? 224 then Lead 1 0 160 191
  else if b =? 237 then Lead 1 13 128 159
  else if b <? 240 then Lead 1 (b - 224) 128 191
  else if b =? 240 then Lead 2 0 144 191
  else if b <? 244 then Lead 2 (b - 240) 128 191
  else if b =? 244 then Lead 2 4 128 143
  else Invalid.

Definition URIError : string := "URI malformed".

(** [pending] is [Some (more, acc, lo, hi)] in the middle of a sequence:
    the next character must open an escape whose octet lies within
    [lo..hi], and [more] octets are due after it. *)
Fixpoint decode (s : string) (pending : option (nat * Z * Z * Z))
  : result (list Z) :=
  match s with
  | EmptyString =>
      match pending with
      | None => Ok []
      | Some _ => Throw URIError
      end
  | String c rest =>
      if Ascii.eqb c "%" then
        match rest with
        | String h (String l rest') =>
            match hex_digit h, hex_digit l with
            | Some x, Some y =>
                let b := 16 * x + y in
                match pending with
                | None =>
                    match first_octet b with
                    | Single => bind (decode rest' None)
                                  (fun cs => Ok (b :: cs))
                    | Lead more acc lo hi =>
                        decode rest' (Some (more, acc, lo, hi))
                    | Invalid => Throw URIError
                    end
                | Some (more, acc, lo, hi) =>
                    if (lo <=? b) && (b <=? hi) then
                      let acc' := 64 * acc + (b - 128) in
                      match more with
                      | O => bind (decode rest' None)
                               (fun cs => Ok (acc' :: cs))
                      | S more' => decode rest' (Some (more', acc', 128, 191))
                      end
                    else Throw URIError
                end
            | _, _ => Throw URIError
            end
        | _ => Throw URIError
        end
      else
        match pending with
        | None => bind (decode rest None)
                    (fun cs => Ok (Z.of_nat (nat_of_ascii c) :: cs))
        | Some _ => Throw URIError
        end
  end.

Definition decodeURIComponent (s : string) : result (list Z) :=
  decode s None.

(** [xs.push(x)] and [xs.shift()], as the new contents of the array. *)
Definition push {A} (xs : list A) (x : A) : list A := xs ++ [x].
Definition shift {A} (xs : list A) : list A := tail xs.

End JS.

Notation "'let*' x ':=' m 'in' k" := (JS.bind m (fun x => k))
  (at level 10, x name, m at level 100, k at level 200).

(* ===================================================================== *)
(** ** Express: requests, middleware outcomes and mount points *)
(* ===================================================================== *)

Module Express.

(** The two fields of [req.body] that the activity logger reads. *)
Record Body := {
  body_reason : option string;
  body_message : option string
}.

(** The request object, with the fields the modelled code reads.
    [req_path] is what [req.path] returns at the moment it is read: inside
    a middleware mounted with [app.use(mountpath, ...)] the mount point is
    not part of it (see [use]).  [req_cookies] is [undefined] until the
    cookie parser has run. *)
Record Request := {
  req_method : string;
  req_path : string;
  req_authorization : option string;
  req_cookies : option (gmap string string);
  req_ip : option string;
  req_remoteAddress : option string;
  req_userAgent : option string;
  req_userId : option string;
  req_params : list (string * string);
  req_query : list (string * string);
  req_body : option Body
}.

Definition with_path (req : Request) (p : string) : Request :=
  {| req_method := req_method req;
     req_path := p;
     req_authorization := req_authorization req;
     req_cookies := req_cookies req;
     req_ip := req_ip req;
     req_remoteAddress := req_remoteAddress req;
     req_userAgent := req_userAgent req;
     req_userId := req_userId req;
     req_params := req_params req;
     req_query := req_query req;
     req_body := req_body req |}.

(** What a layer does with a request: hand it to the next stage
    ([next()]), answer it itself with [res.status(status).send(body)], or
    fail with [next(err)], which makes the router skip every later
    middleware up to the error handlers; [status] and [message] are
    [err.status] and [err.message]. *)
Inductive outcome : Type :=
| Next
| Respond (status : Z) (body : string)
| Failed (status : Z) (message : string).

(** *** Mount paths

    A middleware registered with [app.use(mountpath, mw)] runs for the
    requests whose path starts with the mount path, and while it runs the
    matched prefix is cut off [req.url], hence off [req.path]; the full
    path stays in [req.originalUrl], which the modelled code does not read.
    The routers of the server rely on the same rule: the route
    [router.get("/activity-logs")] mounted at ["/api/admin"] serves
    [/api/admin/activity-logs].

    Express 4 compiles the path given to [app.use] with
    [{ sensitive: false, strict: false, end: false }]: letters match
    without regard to case, [*] matches any run of characters, one
    trailing slash of the pattern is optional, and the match must end at
    the end of the path or just before a [/].  What a [*] has taken is a
    parameter of the layer and is decoded with [decodeURIComponent] before
    the middleware runs; when that throws, the middleware does not run and
    the layer fails with an error of status 400. *)

Definition to_lower (c : ascii) : ascii :=
  let n := nat_of_ascii c in
  if (65 <=? n)%nat && (n <=? 90)%nat then ascii_of_nat (n + 32) else c.

(** Two characters that the case-insensitive matcher takes for equal. *)
Definition same_letter (d c : ascii) : bool :=
  Ascii.eqb (to_lower d) (to_lower c).

Inductive token : Type :=
| Lit (c : ascii)
| Star.

Fixpoint tokens (pattern : string) : list token :=
  match pattern with
  | EmptyString => []
  | String c rest =>
      (if Ascii.eqb c "*" then Star else Lit c) :: tokens rest
  end.

(** A trailing slash of the pattern is dropped: it is optional anyway. *)
Fixpoint drop_trailing_slash (pattern : string) : string :=
  match pattern with
  | EmptyString => EmptyString
  | String c EmptyString => if Ascii.eqb c "/" then EmptyString else pattern
  | String c rest => String c (drop_trailing_slash rest)
  end.

Definition at_boundary (s : string) : bool :=
  match s with
  | EmptyString => true
  | String c _ => Ascii.eqb c "/"
  end.

(** The end of every mount pattern, [\/?(?=\/|$)]: take a slash if the
    match can still end there, otherwise take nothing. *)
Definition match_end (s : string) : option string :=
  match s with
  | String c rest =>
      if Ascii.eqb c "/" && at_boundary rest then Some rest
      else if at_boundary s then Some s else None
  | EmptyString => Some s
  end.

(** [match_tokens ts s] is the first match of [ts] followed by
    [match_end], in the order a backtracking matcher tries them (a [*]
    takes as much as it can): the text that each [*] has taken, and what
    is left of [s]. *)
Fixpoint match_tokens (ts : list token)
  : string -> option (list string * string) :=
  match ts with
  | [] => fun s => pair [] <$> match_end s
  | Lit c :: ts' =>
      fun s =>
        match s with
        | String d rest =>
            if same_letter d c then match_tokens ts' rest else None
        | EmptyString => None
        end
  | Star :: ts' =>
      fun s =>
        (fun m : string * (list string * string) =>
           (m.1 :: m.2.1, m.2.2)) <$>
        (fix star (s : string) : option (string * (list string * string)) :=
           match s with
           | EmptyString => pair EmptyString <$> match_tokens ts' s
           | String d rest =>
               match star rest with
               | Some m => Some (String d m.1, m.2)
               | None => pair EmptyString <$> match_tokens ts' s
               end
           end) s
  end.

(** [decode_param]: the text a [*] has taken goes through
    [decodeURIComponent]; when that throws, the layer fails with an error
    of status 400. *)
Definition decode_param (val : string) : JS.result (list Z) :=
  if String.eqb val "" then JS.Ok []
  else
    JS.try_catch (JS.decodeURIComponent val)
      (fun _ => JS.Throw ("Failed to decode param '" +:+ val +:+ "'")).

Fixpoint decode_params (vals : list string) : JS.result (list (list Z)) :=
  match vals with
  | [] => JS.Ok []
  | val :: vals' =>
      let* v := decode_param val in
      let* vs := decode_params vals' in
      JS.Ok (v :: vs)
  end.

(** Whether a layer registered with [app.use(mountpath, ...)] matches a
    path: not at all; or it does, and [path] is what the mounted
    middleware sees ([req.url] with the matched prefix cut off and a
    leading slash ensured); or the pattern matches but a parameter cannot
    be decoded. *)
Inductive layer_result : Type :=
| NoMatch
| Match (path : string)
| BadParam (message : string).

Definition layer_match (mountpath path : string) : layer_result :=
  match match_tokens (tokens (drop_trailing_slash mountpath)) path with
  | Some (vals, rest) =>
      match decode_params vals with
      | JS.Ok _ =>
          Match (if JS.startsWith rest "/" then rest else "/" +:+ rest)
      | JS.Throw message => BadParam message
      end
  | None => NoMatch
  end.

(** [mount mountpath path]: the path the mounted middleware sees, when the
    layer matches and runs it. *)
Definition mount (mountpath path : string) : option string :=
  match layer_match mountpath path with
  | Match p => Some p
  | _ => None
  end.

(** The message of the error with which the layer fails, when it does. *)
Definition layer_error (mountpath path : string) : option string :=
  match layer_match mountpath path with
  | BadParam message => Some message
  | _ => None
  end.

(** [app.use(mountpath, mw)]: the requests that match reach [mw] with the
    mount point cut off [req.path]; a request whose parameter cannot be
    decoded never reaches [mw], the layer fails with status 400; the others
    pass by. *)
Definition use {S : Type} (mountpath : string)
    (mw : S -> Z -> Request -> JS.result (S * outcome))
    (st : S) (now : Z) (req : Request) : JS.result (S * outcome) :=
  match mount mountpath (req_path req) with
  | Some p => mw st now (with_path req p)
  | None =>
      match layer_error mountpath (req_path req) with
      | Some message => JS.Ok (st, Failed 400 message)
      | None => JS.Ok (st, Next)
      end
  end.

End Express.

(* ===================================================================== *)
(** ** The activity logger (middleware/activityLogger) *)
(* ===================================================================== *)

Module ActivityLogger.
Import Express.

(** [interface Activity].  [timestamp] is a [Date], kept as milliseconds;
    [params] and [query] are the parsed key/value pairs. *)
Record Activity := {
  userId : option string;
  timestamp : Z;
  method : string;
  path : string;
  ip : string;
  userAgent : string;
  statusCode : option Z;
  params : option (list (string * string));
  query : option (list (string * string));
  duration : Z;
  message : option string
}.

(** [Partial<Activity> & { message?: string }]: every field may be absent. *)
Record PartialActivity := {
  entry_userId : option string;
  entry_timestamp : option Z;
  entry_method : option string;
  entry_path : option string;
  entry_ip : option string;
  entry_userAgent : option string;
  entry_statusCode : option Z;
  entry_params : option (list (string * string));
  entry_query : option (list (string * string));
  entry_duration : option Z;
  entry_message : option string
}.

(** The entry [{}]. *)
Definition empty_entry : PartialActivity :=
  {| entry_userId := None; entry_timestamp := None; entry_method := None;
     entry_path := None; entry_ip := None; entry_userAgent := None;
     entry_statusCode := None; entry_params := None; entry_query := None;
     entry_duration := None; entry_message := None |}.

Definition MAX_ACTIVITIES : nat := 10000.

(** [if (activities.length > MAX_ACTIVITIES) activities.shift()], on an
    array with capacity [cap]. *)
Definition shift_if_over (cap : nat) (activities : list Activity)
  : list Activity :=
  if (cap <? length activities)%nat then JS.shift activities
  else activities.

Definition isImportantOperation (method path : string) : bool :=
  if JS.array_includes ["POST"; "PUT"; "PATCH"; "DELETE"] method then true
  else if JS.includes path "/api/admin" then true
  else if JS.includes path "/api/auth" then true
  else false.

(** [Object.keys(o).length > 0 ? o : undefined] *)
Definition non_empty (o : list (string * string))
  : option (list (string * string)) :=
  match o with
  | [] => None
  | _ => Some o
  end.

(** The record that the replaced [res.send] builds. *)
Definition request_activity (req : Request) (status : Z)
    (startTime now : Z) : Activity :=
  {| userId := req_userId req;
     timestamp := now;
     method := req_method req;
     path := req_path req;
     ip := JS.or_default
             (JS.or_else (req_ip req) (req_remoteAddress req)) "unknown";
     userAgent := JS.or_default (req_userAgent req) "unknown";
     statusCode := Some status;
     params := non_empty (req_params req);
     query := non_empty (req_query req);
     duration := now - startTime;
     message :=
       match req_body req with
       | Some b =>
           let m := JS.or_else (body_reason b) (body_message b) in
           if JS.truthy m then m else None
       | None => None
       end |}.

(** [activityLogger]: the body of the [res.send] it installs, run when
    the response of [req] is sent with status [status]; the result is the
    new contents of [activities]. *)
Definition activityLogger (activities : list Activity) (req : Request)
    (status : Z) (startTime now : Z) : list Activity :=
  let activity := request_activity req status startTime now in
  if isImportantOperation (req_method req) (req_path req) then
    shift_if_over MAX_ACTIVITIES (JS.push activities activity)
  else activities.

(** The record that [logActivity] builds from a partial entry. *)
Definition entry_activity (entry : PartialActivity) (now : Z) : Activity :=
  {| userId := entry_userId entry;
     timestamp := default now (entry_timestamp entry);
     method := JS.or_default (entry_method entry) "SYSTEM";
     path := JS.or_default (entry_path entry) "/internal";
     ip := JS.or_default (entry_ip entry) "127.0.0.1";
     userAgent := JS.or_default (entry_userAgent entry) "system";
     statusCode := entry_statusCode entry;
     params := entry_params entry;
     query := entry_query entry;
     duration := default 0 (entry_duration entry);
     message := entry_message entry |}.

(** [logActivity]: the new contents of [activities] and the line written
    to the console. *)
Definition logActivity (activities : list Activity)
    (entry : PartialActivity) (now : Z) : list Activity * string :=
  let activity := entry_activity entry now in
  let activities := shift_if_over MAX_ACTIVITIES (JS.push activities activity) in
  (activities,
   "📝 Activity logged: " +:+ method activity +:+ " " +:+ path activity
     +:+ " by " +:+ JS.or_default (userId activity) "system").

Definition getActivityLogs (activities : list Activity)
    (userId' method' : option string) (limit : option JS.number)
  : list Activity :=
  let limit := default (JS.of_Z 100) limit in
  let filtered := activities in
  let filtered :=
    if JS.truthy userId'
    then filter (fun a => userId a = userId') filtered else filtered in
  let filtered :=
    if JS.truthy method'
    then filter (fun a => Some (method a) = method') filtered else filtered in
  reverse (JS.slice filtered (JS.neg limit)).

Definition clearActivityLogs (activities : list Activity) : list Activity :=
  [].

(** The limit that the handler of [GET /activity-logs] passes on:
    [Math.min(Number(req.query.limit) || 100, 1000)], as a function of
    the value of [Number(req.query.limit)]. *)
Definition route_limit (requested : JS.number) : JS.number :=
  JS.Math_min (JS.number_or requested (JS.of_Z 100)) (JS.of_Z 1000).

(** The [data] of the response of [GET /activity-logs]. *)
Definition activity_logs_route (activities : list Activity)
    (q_userId q_method : option string) (requested : JS.number)
  : list Activity :=
  getActivityLogs activities q_userId q_method (Some (route_limit requested)).

(** *** Sequences of operations on the array *)

(** What can change [activities]: the response of a request is sent
    through the replaced [res.send], [logActivity] is called, or
    [clearActivityLogs] is called. *)
Inductive operation : Type :=
| Sent (req : Request) (status : Z) (startTime now : Z)
| Logged (entry : PartialActivity) (now : Z)
| Cleared.

Definition step (activities : list Activity) (op : operation)
  : list Activity :=
  match op with
  | Sent req status startTime now =>
      activityLogger activities req status startTime now
  | Logged entry now => fst (logActivity activities entry now)
  | Cleared => clearActivityLogs activities
  end.

Definition run (activities : list Activity) (ops : list operation)
  : list Activity :=
  fold_left step ops activities.

(** The record that an operation pushes, if any. *)
Definition pushed (op : operation) : list Activity :=
  match op with
  | Sent req status startTime now =>
      if isImportantOperation (req_method req) (req_path req)
      then [request_activity req status startTime now] else []
  | Logged entry now => [entry_activity entry now]
  | Cleared => []
  end.

(** The records pushed since the array was last emptied, oldest first. *)
Definition record (history : list Activity) (op : operation)
  : list Activity :=
  match op with
  | Cleared => []
  | _ => history ++ pushed op
  end.

Definition appended (ops : list operation) : list Activity :=
  fold_left record ops [].

(** The last [n] elements of a list. *)
Definition last_n {A} (n : nat) (xs : list A) : list A :=
  drop (length xs - n) xs.

(** The records that a query for [userId'] and [method'] selects: an
    argument that is [undefined] or empty selects everything. *)
Definition selected (userId' method' : option string) (a : Activity)
  : Prop :=
  (JS.truthy userId' = true -> userId a = userId') /\
  (JS.truthy method' = true -> Some (method a) = method').

#[global] Instance selected_dec userId' method' a :
  Decision (selected userId' method' a).
Proof. unfold selected. apply _. Defined.

Definition matching (userId' method' : option string)
    (activities : list Activity) : list Activity :=
  filter (selected userId' method') activities.

End ActivityLogger.

(* ===================================================================== *)
(** ** express-rate-limit, with the options the server passes *)
(* ===================================================================== *)

(** The server builds its four limiters with [rateLimit] of the package
    express-rate-limit, a dependency and not a source file of the
    repository; only the options it is given are in the sources.  The model
    follows what the package documents for these options: no [keyGenerator]
    and no [store] are passed, so a request is keyed by [req.ip] and the
    hits are kept in the package's memory store, one window of [windowMs]
    per key, opened by the first counted request of the key; a counted
    request is answered with status 429 and [message] once the hits of its
    key exceed [max]. *)

Module RateLimit.
Import Express.

(** The options given to [rateLimit({...})].  [standardHeaders] and
    [legacyHeaders] only choose response headers, which are not
    modelled. *)
Record Options := {
  windowMs : Z;
  max : Z;
  message : string;
  skip : Request -> JS.result bool
}.

(** One entry of the limiter's memory store. *)
Record Client := {
  totalHits : Z;
  resetTime : Z
}.

(** The memory store of one limiter.  The key of a request is the
    library's default, [req.ip]. *)
Abbreviation Store := (gmap (option string) Client).

Definition keyGenerator (req : Request) : option string := req_ip req.

(** [store.increment(key)]: a client without a live window gets a fresh
    one that ends [windowMs] from now; then the hit is counted. *)
Definition increment (o : Options) (store : Store) (key : option string)
    (now : Z) : Store * Client :=
  let fresh := {| totalHits := 0; resetTime := now + windowMs o |} in
  let client := default fresh (store !! key) in
  let client := if resetTime client <=? now then fresh else client in
  let client := {| totalHits := totalHits client + 1;
                   resetTime := resetTime client |} in
  (<[key := client]> store, client).

(** What the limiter does with a counted request: status 429 with the
    configured message once the count exceeds [max]. *)
Definition verdict (o : Options) (client : Client) : outcome :=
  if max o <? totalHits client then Respond 429 (message o) else Next.

(** The middleware returned by [rateLimit(o)]: skipped requests pass
    uncounted; the others are counted, then judged. *)
Definition middleware (o : Options) (store : Store) (now : Z)
    (req : Request) : JS.result (Store * outcome) :=
  let* skipped := skip o req in
  if (skipped : bool) then JS.Ok (store, Next)
  else
    let '(store', client) := increment o store (keyGenerator req) now in
    JS.Ok (store', verdict o client).

End RateLimit.

(* ===================================================================== *)
(** ** The server entry file: role-based admission *)
(* ===================================================================== *)

Module Server.
Import Express.
Export RateLimit.

(** The part of [JwtPayload] the server reads. *)
Record JwtPayload := {
  userRole : option string
}.

(** The hit stores of the four limiters created at start-up. *)
Record Limiters := {
  hotelOwnerStore : Store;
  userStore : Store;
  anonStore : Store;
  paymentStore : Store
}.

Definition fresh_limiters : Limiters :=
  {| hotelOwnerStore := ∅; userStore := ∅; anonStore := ∅;
     paymentStore := ∅ |}.

Definition fifteen_minutes : Z := 15 * 60 * 1000.

Section WithJwt.

(** [process.env.JWT_SECRET_KEY] and [jwt.verify], which returns the
    decoded payload or throws. *)
Variable JWT_SECRET_KEY : string.
Variable jwt_verify : string -> string -> JS.result JwtPayload.

(** The local [cleanToken]: a leading ["Bearer "] is removed. *)
Definition cleanToken (token : string) : string :=
  if JS.startsWith token "Bearer "
  then JS.substring_from 7 token else token.

Definition getUserRoleFromToken (token : option string)
  : JS.result string :=
  match token with
  | Some token =>
      if String.eqb token "" then JS.Ok "anonymous"
      else
        JS.try_catch
          (let* decoded := jwt_verify (cleanToken token) JWT_SECRET_KEY in
           JS.Ok (JS.or_default (userRole decoded) "user"))
          (fun _ => JS.Ok "anonymous")
  | None => JS.Ok "anonymous"
  end.

Definition hotelOwnerLimiter : Options :=
  {| windowMs := fifteen_minutes;
     max := 500;
     message := "Too many requests from this IP, please try again later. (Hotel Owner Rate Limit)";
     skip := fun _ => JS.Ok false |}.

Definition userLimiter : Options :=
  {| windowMs := fifteen_minutes;
     max := 300;
     message := "Too many requests from this IP, please try again later. (User Rate Limit)";
     skip := fun _ => JS.Ok false |}.

Definition anonLimiter : Options :=
  {| windowMs := fifteen_minutes;
     max := 100;
     message := "Too many requests from this IP, please try again later. (Anonymous Rate Limit)";
     skip := fun _ => JS.Ok false |}.

(** [authHeader?.startsWith("Bearer ") ? authHeader.substring(7)
    : req.cookies?.["session_id"]] *)
Definition extract_token (req : Request) : option string :=
  let bearer :=
    match req_authorization req with
    | Some authHeader => JS.startsWith authHeader "Bearer "
    | None => false
    end in
  if bearer then JS.substring_from 7 <$> req_authorization req
  else
    match req_cookies req with
    | Some cookies => cookies !! "session_id"
    | None => None
    end.

Definition bypass_paths : list string :=
  ["/api/health"; "/api/status"; "/api/auth/validate-token";
   "/api/auth/google-callback"].

(** Run one of the role limiters on its own store. *)
Definition with_hotelOwnerStore (st : Limiters) (r : Store * outcome)
  : Limiters * outcome :=
  ({| hotelOwnerStore := r.1; userStore := userStore st;
      anonStore := anonStore st; paymentStore := paymentStore st |}, r.2).

Definition with_userStore (st : Limiters) (r : Store * outcome)
  : Limiters * outcome :=
  ({| hotelOwnerStore := hotelOwnerStore st; userStore := r.1;
      anonStore := anonStore st; paymentStore := paymentStore st |}, r.2).

Definition with_anonStore (st : Limiters) (r : Store * outcome)
  : Limiters * outcome :=
  ({| hotelOwnerStore := hotelOwnerStore st; userStore := userStore st;
      anonStore := r.1; paymentStore := paymentStore st |}, r.2).

Definition with_paymentStore (st : Limiters) (r : Store * outcome)
  : Limiters * outcome :=
  ({| hotelOwnerStore := hotelOwnerStore st; userStore := userStore st;
      anonStore := anonStore st; paymentStore := r.1 |}, r.2).

Definition roleBasedRateLimiter (st : Limiters) (now : Z) (req : Request)
  : JS.result (Limiters * outcome) :=
  if String.eqb (req_path req) "/api/health"
     || String.eqb (req_path req) "/api/status"
     || String.eqb (req_path req) "/api/auth/validate-token"
     || String.eqb (req_path req) "/api/auth/google-callback"
  then JS.Ok (st, Next)
  else
    let token := extract_token req in
    let* userRole := getUserRoleFromToken token in
    if String.eqb userRole "admin" then JS.Ok (st, Next)
    else if String.eqb userRole "hotel_owner" then
      let* r := middleware hotelOwnerLimiter (hotelOwnerStore st) now req in
      JS.Ok (with_hotelOwnerStore st r)
    else if String.eqb userRole "user" then
      let* r := middleware userLimiter (userStore st) now req in
      JS.Ok (with_userStore st r)
    else
      let* r := middleware anonLimiter (anonStore st) now req in
      JS.Ok (with_anonStore st r).

Definition paymentLimiter_options : Options :=
  {| windowMs := fifteen_minutes;
     max := 50;
     message := "Too many payment requests, please try again later.";
     skip := fun req =>
       let token := extract_token req in
       let* userRole := getUserRoleFromToken token in
       JS.Ok (String.eqb userRole "admin") |}.

Definition paymentLimiter (st : Limiters) (now : Z) (req : Request)
  : JS.result (Limiters * outcome) :=
  let* r := middleware paymentLimiter_options (paymentStore st) now req in
  JS.Ok (with_paymentStore st r).

(** The two rate-limiting layers in the order the server registers them:
    [app.use("/api/", roleBasedRateLimiter)], then
    [app.use("/api/hotels/*/bookings/payment-intent", paymentLimiter)].
    A request the first layer answers, or fails on, never reaches the
    second. *)
Definition admission (st : Limiters) (now : Z) (req : Request)
  : JS.result (Limiters * outcome) :=
  let* r := use "/api/" roleBasedRateLimiter st now req in
  match r.2 with
  | Next =>
      use "/api/hotels/*/bookings/payment-intent" paymentLimiter
          r.1 now req
  | _ => JS.Ok r
  end.

(** The first layer alone. *)
Definition role_layer (st : Limiters) (now : Z) (req : Request)
  : JS.result (Limiters * outcome) :=
  use "/api/" roleBasedRateLimiter st now req.

(** The role that the limiters see for a request. *)
Definition role_of (req : Request) : JS.result string :=
  getUserRoleFromToken (extract_token req).

(** The limiter and the store that [roleBasedRateLimiter] picks for a
    role other than ["admin"]. *)
Definition role_limiter (role : string) : Options :=
  if String.eqb role "hotel_owner" then hotelOwnerLimiter
  else if String.eqb role "user" then userLimiter
  else anonLimiter.

Definition role_store (role : string) (st : Limiters) : Store :=
  if String.eqb role "hotel_owner" then hotelOwnerStore st
  else if String.eqb role "user" then userStore st
  else anonStore st.

Definition set_role_store (role : string) (st : Limiters) (store : Store)
  : Limiters :=
  if String.eqb role "hotel_owner" then
    (with_hotelOwnerStore st (store, Next)).1
  else if String.eqb role "user" then (with_userStore st (store, Next)).1
  else (with_anonStore st (store, Next)).1.

Definition is_bypass_path (p : string) : bool :=
  bool_decide (p ∈ bypass_paths).

(** A request that the first layer hands to the limiter of [role] under
    the key [key]: it is under the mount point, what is left of its path
    is not one of the bypass strings, and its credential resolves to
    [role]. *)
Definition gated_as (role : string) (key : option string)
    (req : Request) : Prop :=
  role_of req = JS.Ok role /\
  req_ip req = key /\
  exists p, mount "/api/" (req_path req) = Some p /\
            is_bypass_path p = false.

(** A request for the payment-intent route. *)
Definition payment_request (req : Request) : Prop :=
  exists p,
    mount "/api/hotels/*/bookings/payment-intent" (req_path req) = Some p.

(** A payment-intent request of the client [key] whose credential
    resolves to [role]. *)
Definition payment_request_of (role : string) (key : option string)
    (req : Request) : Prop :=
  role_of req = JS.Ok role /\ req_ip req = key /\ payment_request req.

(** The outcome for a payment-intent request that finds [n] earlier
    requests of its client counted in the window. *)
Definition payment_expected (role : string) (n : Z) : outcome :=
  if max (role_limiter role) <? n + 1
  then Respond 429 (message (role_limiter role))
  else if 50 <? n + 1
       then Respond 429 "Too many payment requests, please try again later."
       else Next.

(** What both layers together do with a payment-intent request of a
    role other than ["admin"]: the limiter of the role counts and judges
    first, and only a request it passes on is counted and judged by the
    payment limiter. *)
Definition stacked (role : string) (st : Limiters) (now : Z)
    (req : Request) : Limiters * outcome :=
  let r := increment (role_limiter role) (role_store role st)
             (req_ip req) now in
  let st1 := set_role_store role st r.1 in
  match verdict (role_limiter role) r.2 with
  | Next =>
      let q := increment paymentLimiter_options (paymentStore st)
                 (req_ip req) now in
      with_paymentStore st1 (q.1, verdict paymentLimiter_options q.2)
  | out => (st1, out)
  end.

(** What the two layers hand on when neither limiter answers: [next()],
    or the failure of the payment layer when the text that its [*] has
    taken cannot be decoded. *)
Definition handed_on (req : Request) : outcome :=
  match layer_error "/api/hotels/*/bookings/payment-intent" (req_path req)
  with
  | Some message => Failed 400 message
  | None => Next
  end.

End WithJwt.

(** A clocked sequence of requests through a middleware: the outcome of
    each, and the final state.  A request whose handling throws leaves the
    state as it was. *)
Fixpoint serve {S : Type}
    (mw : S -> Z -> Request -> JS.result (S * outcome))
    (st : S) (trace : list (Z * Request))
  : list (JS.result outcome) * S :=
  match trace with
  | [] => ([], st)
  | (now, req) :: rest =>
      match mw st now req with
      | JS.Ok (st', out) =>
          let '(outs, final) := serve mw st' rest in
          (JS.Ok out :: outs, final)
      | JS.Throw e =>
          let '(outs, final) := serve mw st rest in
          (JS.Throw e :: outs, final)
      end
  end.

(** No live window for [key] at time [now]: no entry, or one whose
    window has ended. *)
Definition window_over (store : Store) (key : option string) (now : Z)
  : Prop :=
  match store !! key with
  | Some c => resetTime c <= now
  | None => True
  end.

End Server.

(* ===================================================================== *)
(** ** Concrete requests and tokens for the examples *)
(* ===================================================================== *)

Module Demo.
Import Express Server.

Definition secret : string := "demo-secret".

(** A stand-in for [jwt.verify] that knows four tokens and rejects every
    other string. *)
Definition verify (token key : string) : JS.result JwtPayload :=
  if negb (String.eqb key secret) then JS.Throw "JsonWebTokenError"
  else if String.eqb token "admin-token" then
    JS.Ok {| userRole := Some "admin" |}
  else if String.eqb token "owner-token" then
    JS.Ok {| userRole := Some "hotel_owner" |}
  else if String.eqb token "user-token" then
    JS.Ok {| userRole := Some "user" |}
  else if String.eqb token "plain-token" then
    JS.Ok {| userRole := None |}
  else JS.Throw "JsonWebTokenError".

(** A [GET] request as it enters the application, before the cookie
    parser has run. *)
Definition get (path : string) (authorization : option string)
    (ip : string) : Request :=
  {| req_method := "GET"; req_path := path;
     req_authorization := authorization; req_cookies := None;
     req_ip := Some ip; req_remoteAddress := Some ip;
     req_userAgent := Some "curl/8.0"; req_userId := None;
     req_params := []; req_query := []; req_body := None |}.

(** A [DELETE] request as the routers see it, after the cookie parser
    (it found no cookie). *)
Definition delete (path : string) (authorization : option string)
    (ip : string) : Request :=
  {| req_method := "DELETE"; req_path := path;
     req_authorization := authorization; req_cookies := Some ∅;
     req_ip := Some ip; req_remoteAddress := Some ip;
     req_userAgent := Some "curl/8.0"; req_userId := None;
     req_params := []; req_query := []; req_body := None |}.

(** A logged record of [user] doing [verb] at time [t]. *)
Definition did (user verb : string) (t : Z) : ActivityLogger.Activity :=
  ActivityLogger.entry_activity
    {| ActivityLogger.entry_userId := Some user;
       ActivityLogger.entry_timestamp := Some t;
       ActivityLogger.entry_method := Some verb;
       ActivityLogger.entry_path := Some "/api/hotels/7";
       ActivityLogger.entry_ip := None;
       ActivityLogger.entry_userAgent := None;
       ActivityLogger.entry_statusCode := Some 200;
       ActivityLogger.entry_params := None;
       ActivityLogger.entry_query := None;
       ActivityLogger.entry_duration := Some 3;
       ActivityLogger.entry_message := None |} t.

Definition sample_log : list ActivityLogger.Activity :=
  [did "u1" "DELETE" 1; did "u2" "DELETE" 2; did "u1" "POST" 3;
   did "u1" "DELETE" 4; did "u1" "DELETE" 5; did "u2" "PUT" 6].

Definition as_user : option string := Some "Bearer user-token".
Definition as_admin : option string := Some "Bearer admin-token".

(** [n] copies of one request, all at time [now]. *)
Definition burst (n : nat) (now : Z) (req : Request)
  : list (Z * Request) :=
  replicate n (now, req).

End Demo.

(* ===================================================================== *)
(** ** The activity logger: login logs, statistics, mounted routers *)
(* ===================================================================== *)

Module ActivityQueries.
Import Express ActivityLogger.

(** The test of [getLoginLogs]:
    [a.path === "/api/auth/login" && a.statusCode === 200]. *)
Definition is_login (a : Activity) : Prop :=
  path a = "/api/auth/login" /\ statusCode a = Some 200.

#[global] Instance is_login_dec a : Decision (is_login a).
Proof. unfold is_login. apply _. Defined.

Definition getLoginLogs (activities : list Activity)
    (userId' : option string) (limit : option JS.number) : list Activity :=
  let limit := default (JS.of_Z 50) limit in
  let filtered := filter is_login activities in
  let filtered :=
    if JS.truthy userId'
    then filter (fun a => userId a = userId') filtered else filtered in
  reverse (JS.slice filtered (JS.neg limit)).

(** [activitiesByMethod] of the statistics. *)
Record MethodCounts := {
  GET : nat;
  POST : nat;
  PUT : nat;
  PATCH : nat;
  DELETE : nat
}.

(** The object that [getActivityStats] returns; [lastActivity] is [null]
    or a timestamp. *)
Record Stats := {
  totalActivities : nat;
  totalUsers : nat;
  activitiesByMethod : MethodCounts;
  lastActivity : option Z
}.

(** [activities.filter(a => a.method === m).length] *)
Definition count_method (m : string) (activities : list Activity) : nat :=
  length (filter (fun a => method a = m) activities).

(** [activities.map(a => a.userId).filter(Boolean)] *)
Definition actors (activities : list Activity) : list string :=
  omap (fun a => if JS.truthy (userId a) then userId a else None) activities.

Definition getActivityStats (activities : list Activity) : Stats :=
  {| totalActivities := length activities;
     totalUsers := size (list_to_set (actors activities) : gset string);
     activitiesByMethod :=
       {| GET := count_method "GET" activities;
          POST := count_method "POST" activities;
          PUT := count_method "PUT" activities;
          PATCH := count_method "PATCH" activities;
          DELETE := count_method "DELETE" activities |};
     lastActivity := timestamp <$> last activities |}.

(** The five verbs of the histogram. *)
Definition histogram_verbs : list string :=
  ["GET"; "POST"; "PUT"; "PATCH"; "DELETE"].

(** [sub] occurs somewhere in [s]. *)
Definition occurs_in (sub s : string) : Prop :=
  exists pre post, s = pre +:+ sub +:+ post.

(** The records whose verb is none of the five. *)
Definition other_verbs (acts : list Activity) : nat :=
  length (filter (fun a => method a ∉ histogram_verbs) acts).

(** The response of [req] is sent by a handler of a router that the server
    mounts with [app.use(mountpath, router)], such as
    [app.use("/api/admin", adminRoutes)]: the replaced [res.send] runs while
    the mount point is cut off [req.path].  A request that is not under the
    mount point never reaches the router. *)
Definition sent_under (mountpath : string) (activities : list Activity)
    (req : Request) (status : Z) (startTime now : Z) : list Activity :=
  match mount mountpath (req_path req) with
  | Some p => activityLogger activities (with_path req p) status startTime now
  | None => activities
  end.

(** A limit of at least one: a number [>= 1], or [Infinity]. *)
Definition at_least_one (n : JS.number) : Prop :=
  match n with
  | JS.Num q => (1 <= q)%Q
  | JS.PosInfinity => True
  | _ => False
  end.

End ActivityQueries.

(* ===================================================================== *)
(** ** middleware/auth and the activity-log routes *)
(* ===================================================================== *)

Module Auth.
Import Express.

(** The fields of the decoded token that [verifyToken] copies. *)
Record Payload := {
  payload_userId : option string;
  payload_userRole : option string
}.

(** [req.userId] and [req.userRole] after [verifyToken]. *)
Record Identity := {
  id_userId : option string;
  id_userRole : option string
}.

(** What a guard does: answer with [res.status(status).json({ message })],
    or call [next()], with the identity now on the request. *)
Inductive guard : Type :=
| Denied (status : Z) (message : string)
| Granted (who : Identity).

(** The answer of an activity-log route: a refusal of a guard, or the
    handler's status 200 with its payload. *)
Inductive answer (A : Type) : Type :=
| Refused (status : Z) (message : string)
| Success (data : A).
Arguments Refused {A} status message.
Arguments Success {A} data.

Section WithJwt.

Variable JWT_SECRET_KEY : string.
Variable jwt_verify : string -> string -> JS.result Payload.

(** The token that [verifyToken] reads.  [req.cookies["session_id"]] has no
    optional chaining: it throws when the cookie parser has not run. *)
Definition read_token (req : Request) : JS.result (option string) :=
  let bearer :=
    match req_authorization req with
    | Some authHeader =>
        negb (String.eqb authHeader "") && JS.startsWith authHeader "Bearer "
    | None => false
    end in
  if bearer then JS.Ok (JS.substring_from 7 <$> req_authorization req)
  else
    match req_cookies req with
    | Some cookies => JS.Ok (cookies !! "session_id")
    | None => JS.Throw "TypeError"
    end.

Definition verifyToken (req : Request) : JS.result guard :=
  let* token := read_token req in
  match token with
  | Some token =>
      if String.eqb token "" then JS.Ok (Denied 401 "unauthorized")
      else
        JS.try_catch
          (let* decoded := jwt_verify token JWT_SECRET_KEY in
           JS.Ok (Granted {| id_userId := payload_userId decoded;
                             id_userRole := payload_userRole decoded |}))
          (fun _ => JS.Ok (Denied 401 "unauthorized"))
  | None => JS.Ok (Denied 401 "unauthorized")
  end.

Definition verifyRole (allowedRoles : list string) (who : Identity) : guard :=
  match id_userRole who with
  | Some role =>
      if String.eqb role "" || negb (JS.array_includes allowedRoles role)
      then Denied 403 "Access denied"
      else Granted who
  | None => Denied 403 "Access denied"
  end.

(** The guards in front of every activity-log route:
    [verifyToken, verifyRole("admin")]. *)
Definition admin_only (req : Request) : JS.result guard :=
  let* g := verifyToken req in
  match g with
  | Granted who => JS.Ok (verifyRole ["admin"] who)
  | Denied status message => JS.Ok (Denied status message)
  end.

(** [verifyToken] leaves the identity on the request:
    [req.userId = decoded.userId]. *)
Definition with_identity (req : Request) (who : Identity) : Request :=
  {| req_method := req_method req;
     req_path := req_path req;
     req_authorization := req_authorization req;
     req_cookies := req_cookies req;
     req_ip := req_ip req;
     req_remoteAddress := req_remoteAddress req;
     req_userAgent := req_userAgent req;
     req_userId := id_userId who;
     req_params := req_params req;
     req_query := req_query req;
     req_body := req_body req |}.

(** [router.delete("/activity-logs", verifyToken, verifyRole("admin"),
    handler)] as the server runs it on a [DELETE] request for
    [/api/admin/activity-logs]: the new contents of the array and the
    answer.  The router is mounted at [/api/admin] behind
    [app.use(activityLogger)], so every answer is sent through the
    [res.send] that [activityLogger] has replaced ([res.json] calls
    [res.send]): the refusal of a guard is recorded, and so is the answer
    of the handler, after [clearActivityLogs] has emptied the array.
    [startTime] is the time at which [activityLogger] saw the request,
    [now] the time of sending. *)
Definition delete_activity_logs (activities : list ActivityLogger.Activity)
    (req : Request) (startTime now : Z)
  : JS.result (list ActivityLogger.Activity * answer string) :=
  let send acts (req' : Request) (status : Z) :=
    ActivityQueries.sent_under "/api/admin" acts req' status startTime now in
  let* g := verifyToken req in
  match g with
  | Denied status message =>
      JS.Ok (send activities req status, Refused status message)
  | Granted who =>
      let req' := with_identity req who in
      match verifyRole ["admin"] who with
      | Denied status message =>
          JS.Ok (send activities req' status, Refused status message)
      | Granted _ =>
          let cleared := ActivityLogger.clearActivityLogs activities in
          JS.Ok (send cleared req' 200,
                 Success "Activity logs cleared successfully")
      end
  end.

(** The two [GET] routes answer through the same [res.send]; nothing is
    recorded of them, the verb being [GET] and the path read inside the
    router being [/activity-logs] or [/activity-logs/stats]. *)

(** [router.get("/activity-logs/stats", ...)] *)
Definition get_activity_stats (activities : list ActivityLogger.Activity)
    (req : Request) : JS.result (answer ActivityQueries.Stats) :=
  let* g := admin_only req in
  match g with
  | Granted _ => JS.Ok (Success (ActivityQueries.getActivityStats activities))
  | Denied status message => JS.Ok (Refused status message)
  end.

(** [router.get("/activity-logs", ...)]: [requested] is the value of
    [Number(req.query.limit)]. *)
Definition get_activity_logs (activities : list ActivityLogger.Activity)
    (req : Request) (q_userId q_method : option string)
    (requested : JS.number)
  : JS.result (answer (list ActivityLogger.Activity)) :=
  let* g := admin_only req in
  match g with
  | Granted _ =>
      JS.Ok (Success (ActivityLogger.activity_logs_route activities
                        q_userId q_method requested))
  | Denied status message => JS.Ok (Refused status message)
  end.

(** The payload as the rate limiter of the server entry file reads it: the
    same [jwt.verify], of which it uses [userRole] only. *)
Definition role_payload (token key : string) : JS.result Server.JwtPayload :=
  let* decoded := jwt_verify token key in
  JS.Ok {| Server.userRole := payload_userRole decoded |}.

End WithJwt.

(** [cookieParser()], registered after the rate limiters and before the
    routes: it puts the cookies of the request on [req.cookies]. *)
Definition cookieParser (jar : gmap string string) (req : Request) : Request :=
  {| req_method := req_method req;
     req_path := req_path req;
     req_authorization := req_authorization req;
     req_cookies := Some jar;
     req_ip := req_ip req;
     req_remoteAddress := req_remoteAddress req;
     req_userAgent := req_userAgent req;
     req_userId := req_userId req;
     req_params := req_params req;
     req_query := req_query req;
     req_body := req_body req |}.

End Auth.

(* ===================================================================== *)
(** ** The server entry file: allowed origins *)
(* ===================================================================== *)

Module Cors.

(** [[process.env.FRONTEND_URL, ...].filter(Boolean)] *)
Definition allowedOrigins (FRONTEND_URL : option string) : list string :=
  omap (fun o => if JS.truthy o then o else None)
    [FRONTEND_URL;
     Some "http://localhost:5174";
     Some "http://localhost:5173";
     Some "https://mern-booking-hotel.netlify.app";
     Some "https://mern-booking-hotel.netlify.app/";
     Some "https://hotel-mern-booking.vercel.app";
     Some "https://hotel-mern-booking.vercel.app/"].

(** The [origin] function given to [cors]: [callback(null, true)] is
    [Ok true], [callback(new Error("Not allowed by CORS"))] is a throw.  The
    function given to [app.options("*", cors(...))] is the same without the
    console line for blocked origins. *)
Definition origin (FRONTEND_URL : option string) (origin' : option string)
  : JS.result bool :=
  match origin' with
  | None => JS.Ok true
  | Some o =>
      if String.eqb o "" then JS.Ok true
      else if JS.includes o "netlify.app" || JS.includes o "vercel.app"
      then JS.Ok true
      else if JS.includes o "onrender.com" then JS.Ok true
      else if JS.includes o "localhost" then JS.Ok true
      else if JS.array_includes (allowedOrigins FRONTEND_URL) o
      then JS.Ok true
      else JS.Throw "Not allowed by CORS"
  end.

(** The substrings that open the door on their own. *)
Definition open_substrings : list string :=
  ["netlify.app"; "vercel.app"; "onrender.com"; "localhost"].

End Cors.

(* ===================================================================== *)
(** ** middleware/errorHandler *)
(* ===================================================================== *)

Module ErrorHandler.
Import Express.

(** [interface ApiError], with the fields the handler reads; a missing
    number or string is [None]. *)
Record ApiError := {
  err_statusCode : option Z;
  err_status : option Z;
  err_message : option string;
  err_details : option string;
  err_stack : option string
}.

(** [new AppError(message, statusCode = 500, details)]; the stack is
    captured by the constructor. *)
Definition AppError (message : string) (statusCode : option Z)
    (details : option string) (stack : string) : ApiError :=
  {| err_statusCode := Some (default 500 statusCode);
     err_status := None;
     err_message := Some message;
     err_details := details;
     err_stack := Some stack |}.

Inductive log_level : Type :=
| ConsoleError
| ConsoleWarn.

(** What the handler sends, [res.status(status).json(body)], and the
    console method it logs with. *)
Record ErrorResponse := {
  res_status : Z;
  res_success : bool;
  res_message : string;
  res_details : option string;
  res_timestamp : Z;
  res_path : option string;
  res_stack : option string;
  res_level : log_level
}.

(** [a || b] on [number | undefined]: [undefined] and [0] are falsy. *)
Definition or_number (a : option Z) (b : option Z) : option Z :=
  match a with
  | Some n => if n =? 0 then b else a
  | None => b
  end.

(** [errorHandler(err, req, res, next)]; [err] may be [null] or
    [undefined] (every field is read with [err?.]). *)
Definition errorHandler (NODE_ENV : option string) (err : option ApiError)
    (req : Request) (now : Z) : ErrorResponse :=
  let statusCode :=
    default 500 (or_number (or_number (err ≫= err_statusCode)
                                      (err ≫= err_status)) (Some 500)) in
  let message := JS.or_default (err ≫= err_message) "Internal Server Error" in
  let development := bool_decide (NODE_ENV = Some "development") in
  {| res_status := statusCode;
     res_success := false;
     res_message := message;
     res_details := if development then err ≫= err_details else None;
     res_timestamp := now;
     res_path := if development then Some (req_path req) else None;
     res_stack := if development then err ≫= err_stack else None;
     res_level := if 500 <=? statusCode then ConsoleError else ConsoleWarn |}.

End ErrorHandler.

(* ===================================================================== *)
(** ** The rate limiters seen from one client address *)
(* ===================================================================== *)

Module ServerViews.
Import Express Server.

(** What the four limiters hold for one client address. *)
Definition client_view (key : option string) (st : Limiters)
  : list (option Client) :=
  [hotelOwnerStore st !! key; userStore st !! key; anonStore st !! key;
   paymentStore st !! key].

(** The outcome of a middleware, without the state. *)
Definition outcome_of {S : Type} (r : JS.result (S * outcome))
  : JS.result outcome :=
  match r with
  | JS.Ok (_, out) => JS.Ok out
  | JS.Throw e => JS.Throw e
  end.

(** The requests of one client address in a sequence, and the outcomes
    that a list of outcomes, one per request, holds for them. *)
Definition from_client (key : option string) (trace : list (Z * Request))
  : list (Z * Request) :=
  filter (fun tr => req_ip tr.2 = key) trace.

Definition client_outcomes {A : Type} (key : option string)
    (trace : list (Z * Request)) (outs : list A) : list A :=
  snd <$> filter (fun x => req_ip x.1.2 = key) (zip trace outs).

(** Whether the role-based layer hands a request of [role] to a limiter,
    and whether the payment layer does. *)
Definition role_counted (role : string) (req : Request) : bool :=
  match mount "/api/" (req_path req) with
  | Some p => negb (is_bypass_path p) && negb (String.eqb role "admin")
  | None => false
  end.

Definition payment_counted (role : string) (req : Request) : bool :=
  match mount "/api/hotels/*/bookings/payment-intent" (req_path req) with
  | Some _ => negb (String.eqb role "admin")
  | None => false
  end.

Section WithJwt.

Variable JWT_SECRET_KEY : string.
Variable jwt_verify : string -> string -> JS.result JwtPayload.

(** The payment limiter alone, on a request it counts. *)
Definition payment_step (st : Limiters) (now : Z) (req : Request)
  : Limiters * outcome :=
  let o := paymentLimiter_options JWT_SECRET_KEY jwt_verify in
  let q := increment o (paymentStore st) (req_ip req) now in
  with_paymentStore st (q.1, verdict o q.2).

(** Both layers on a request whose credential resolves to [role]. *)
Definition layers (role : string) (st : Limiters) (now : Z) (req : Request)
  : Limiters * outcome :=
  if role_counted role req then
    let r := increment (role_limiter role) (role_store role st)
               (req_ip req) now in
    let st1 := set_role_store role st r.1 in
    match verdict (role_limiter role) r.2 with
    | Next =>
        if payment_counted role req then payment_step st1 now req
        else (st1, handed_on req)
    | out => (st1, out)
    end
  else if payment_counted role req then payment_step st now req
  else (st, handed_on req).

End WithJwt.

End ServerViews.

(* ===================================================================== *)
(** ** Properties of the activity logger *)
(* ===================================================================== *)

Module ActivityLoggerFacts.
Import Express ActivityLogger.

Local Open Scope nat_scope.

Section Capacity.
Context {A : Type}.
Implicit Types (xs hist : list A) (n cap : nat).

Lemma length_last_n n xs : length (last_n n xs) = n `min` length xs.
Proof. unfold last_n. rewrite length_drop. lia. Qed.

Lemma last_n_all n xs : length xs <= n -> last_n n xs = xs.
Proof.
  intros H. unfold last_n.
  replace (length xs - n) with 0 by lia. apply drop_0.
Qed.

Lemma tail_drop xs : tail xs = drop 1 xs.
Proof. destruct xs; simpl; [done | by rewrite drop_0]. Qed.

(** Appending to the last [cap] elements of a history and dropping the
    head when that is one too many gives the last [cap] elements of the
    longer history. *)
Lemma last_n_snoc cap hist x :
  (if cap <? length (last_n cap hist ++ [x])
   then drop 1 (last_n cap hist ++ [x])
   else last_n cap hist ++ [x])
  = last_n cap (hist ++ [x]).
Proof.
  rewrite length_app, length_last_n. simpl.
  destruct (Nat.ltb_spec cap (cap `min` length hist + 1)) as [Hover|Hfits].
  - unfold last_n. rewrite length_app. simpl.
    rewrite !drop_app, drop_drop, length_drop.
    f_equal; f_equal; lia.
  - rewrite (last_n_all cap hist) by lia.
    rewrite last_n_all; [done | rewrite length_app; simpl; lia].
Qed.
End Capacity.

Lemma MAX_ACTIVITIES_pos : 1 <= MAX_ACTIVITIES.
Proof. apply Nat.leb_le. vm_compute. reflexivity. Qed.

Lemma shift_if_over_drop cap (acts : list Activity) :
  shift_if_over cap acts
  = if cap <? length acts then drop 1 acts else acts.
Proof. unfold shift_if_over, JS.shift. by rewrite tail_drop. Qed.

(** What an operation pushes is at most one record, and [step] is a push
    of it followed by the capacity check. *)
Lemma step_cases (acts : list Activity) (op : operation) :
  (op = Cleared /\ step acts op = []) \/
  (op <> Cleared /\ pushed op = [] /\ step acts op = acts) \/
  (exists a, op <> Cleared /\ pushed op = [a] /\
             step acts op = shift_if_over MAX_ACTIVITIES (acts ++ [a])).
Proof.
  destruct op as [req status startTime now | entry now |]; simpl.
  - unfold activityLogger.
    destruct (isImportantOperation _ _); right; [right | left]; eauto.
  - right. right. eauto.
  - by left.
Qed.

Lemma record_not_cleared hist op :
  op <> Cleared -> record hist op = hist ++ pushed op.
Proof. by destruct op. Qed.

Lemma step_history (hist : list Activity) (op : operation) :
  step (last_n MAX_ACTIVITIES hist) op
  = last_n MAX_ACTIVITIES (record hist op).
Proof.
  destruct (step_cases (last_n MAX_ACTIVITIES hist) op)
    as [[-> ->] | [(Hop & Hp & ->) | (a & Hop & Hp & ->)]].
  - done.
  - by rewrite record_not_cleared, Hp, app_nil_r.
  - rewrite record_not_cleared, Hp by done.
    rewrite shift_if_over_drop. apply last_n_snoc.
Qed.

Lemma run_history (ops : list operation) (hist : list Activity) :
  run (last_n MAX_ACTIVITIES hist) ops
  = last_n MAX_ACTIVITIES (fold_left record ops hist).
Proof.
  revert hist. induction ops as [|op ops IH]; intros hist; [done|].
  unfold run in *. simpl. by rewrite step_history, IH.
Qed.

(** C3. Start from the empty array and let any sequence of operations
    happen (responses sent through [activityLogger], calls of
    [logActivity], calls of [clearActivityLogs]), then one more.  The
    array never holds more than 10,000 records; it holds exactly the last
    10,000 records pushed since it was last emptied (all of them when
    there are fewer); and an append pushes at the end and removes one
    record, the oldest, exactly when the push made the length exceed
    10,000. *)
Theorem activities_capped_fifo (ops : list operation) (op : operation) :
  let before := run [] ops in
  let after := step before op in
  length after <= MAX_ACTIVITIES /\
  MAX_ACTIVITIES = 10000 /\
  before = last_n MAX_ACTIVITIES (appended ops) /\
  after = last_n MAX_ACTIVITIES (appended (ops ++ [op])) /\
  length after = MAX_ACTIVITIES `min` length (appended (ops ++ [op])) /\
  after = match op with
          | Cleared => []
          | _ =>
              if MAX_ACTIVITIES <? length (before ++ pushed op)
              then drop 1 (before ++ pushed op)
              else before ++ pushed op
          end.
Proof.
  intros before after.
  assert (Hbefore : before = last_n MAX_ACTIVITIES (appended ops)).
  { subst before. apply (run_history ops []). }
  assert (Hafter : after = last_n MAX_ACTIVITIES (appended (ops ++ [op]))).
  { subst after. rewrite Hbefore, step_history.
    unfold appended. by rewrite fold_left_app. }
  split_and!; try done.
  - rewrite Hafter, length_last_n. lia.
  - by rewrite Hafter, length_last_n.
  - subst after.
    destruct (step_cases before op)
      as [[-> ->] | [(Hop & Hp & ->) | (a & Hop & Hp & ->)]].
    + done.
    + rewrite Hp, app_nil_r.
      assert (length before <= MAX_ACTIVITIES)
        by (rewrite Hbefore, length_last_n; lia).
      destruct (Nat.ltb_spec MAX_ACTIVITIES (length before)); [lia|].
      by destruct op.
    + rewrite Hp, <- shift_if_over_drop. by destruct op.
Qed.

(** *** [logActivity] *)

Lemma last_shift_if_over (acts : list Activity) (a : Activity) :
  last (shift_if_over MAX_ACTIVITIES (JS.push acts a)) = Some a.
Proof.
  unfold shift_if_over, JS.push, JS.shift.
  destruct (Nat.ltb_spec MAX_ACTIVITIES (length (acts ++ [a])))
    as [Hover|_]; [|apply last_snoc].
  rewrite length_app in Hover. simpl in Hover.
  pose proof MAX_ACTIVITIES_pos.
  destruct acts as [|x acts]; simpl in *; [lia | apply last_snoc].
Qed.

Lemma logActivity_retained acts entry now :
  last (logActivity acts entry now).1 = Some (entry_activity entry now).
Proof. unfold logActivity. simpl. apply last_shift_if_over. Qed.

(** C4, as stated: the record that [logActivity] makes of the empty entry
    would carry the actor ["system"].  It does not: [userId] is copied
    from the entry and stays undefined. *)
Lemma logActivity_empty_entry_actor_unset :
  let record := entry_activity empty_entry 1700000000000 in
  (logActivity [] empty_entry 1700000000000).1 = [record] /\
  userId record = None /\
  userId record <> Some "system".
Proof. vm_compute. split_and!; congruence. Qed.

(** C4, amended. [logActivity] with the empty entry, at any time and on
    any contents of the array, makes the record with verb ["SYSTEM"], path
    ["/internal"], address ["127.0.0.1"], agent ["system"], duration zero,
    the current time and no actor (the console line prints the missing
    actor as "system"); whatever the entry, the record becomes the last
    element of the array.  The response of a [GET] request whose path
    contains neither ["/api/admin"] nor ["/api/auth"] leaves the array as
    it was. *)
Theorem logActivity_defaults_and_retention
    (acts : list Activity) (entry : PartialActivity) (now : Z)
    (req : Request) (status startTime sent : Z)
    (Hget : req_method req = "GET")
    (Hadmin : JS.includes (req_path req) "/api/admin" = false)
    (Hauth : JS.includes (req_path req) "/api/auth" = false) :
  let record := entry_activity empty_entry now in
  userId record = None /\
  method record = "SYSTEM" /\
  path record = "/internal" /\
  ip record = "127.0.0.1" /\
  userAgent record = "system" /\
  duration record = 0%Z /\
  timestamp record = now /\
  (logActivity acts empty_entry now).2
    = "📝 Activity logged: SYSTEM /internal by system" /\
  last (logActivity acts empty_entry now).1 = Some record /\
  last (logActivity acts entry now).1 = Some (entry_activity entry now) /\
  isImportantOperation (req_method req) (req_path req) = false /\
  activityLogger acts req status startTime sent = acts.
Proof.
  assert (Himp : isImportantOperation (req_method req) (req_path req)
                 = false).
  { unfold isImportantOperation. by rewrite Hget, Hadmin, Hauth. }
  simpl. split_and!; try reflexivity; try apply logActivity_retained; [done|].
  unfold activityLogger. by rewrite Himp.
Qed.

Lemma logActivity_defaults_and_retention_witness :
  let req := Demo.get "/api/hotels/search" None "10.0.0.7" in
  let record := entry_activity empty_entry 5 in
  last (logActivity [] empty_entry 5).1 = Some record /\
  activityLogger [record] req 200 1 2 = [record].
Proof.
  pose proof (logActivity_defaults_and_retention
                [entry_activity empty_entry 5] empty_entry 5
                (Demo.get "/api/hotels/search" None "10.0.0.7") 200 1 2
                eq_refl eq_refl eq_refl) as H.
  simpl in H. destruct H as (_ & _ & _ & _ & _ & _ & _ & _ & _ & _ & _ & H).
  split; [reflexivity | exact H].
Defined.

(** *** [getActivityLogs] *)

Lemma filter_all {A} (P : A -> Prop) `{!forall x, Decision (P x)}
    (xs : list A) :
  (forall x, P x) -> filter P xs = xs.
Proof.
  intros HP. induction xs as [|x xs IH]; [done|].
  rewrite filter_cons_True by apply HP. by rewrite IH.
Qed.

(** The two optional filters select the [matching] records. *)
Lemma getActivityLogs_filtered acts u m limit :
  getActivityLogs acts u m limit
  = reverse (JS.slice (matching u m acts)
               (JS.neg (default (JS.of_Z 100) limit))).
Proof.
  unfold getActivityLogs, matching. do 2 f_equal.
  destruct (JS.truthy u) eqn:Hu, (JS.truthy m) eqn:Hm.
  - rewrite list_filter_filter. apply list_filter_iff.
    intros a. unfold selected. rewrite Hu, Hm. intuition congruence.
  - apply list_filter_iff.
    intros a. unfold selected. rewrite Hu, Hm. intuition congruence.
  - apply list_filter_iff.
    intros a. unfold selected. rewrite Hu, Hm. intuition congruence.
  - symmetry. apply filter_all.
    intros a. unfold selected. rewrite Hu, Hm. intuition congruence.
Qed.

Lemma Qtrunc_neg_inject_Z (z : Z) :
  JS.Qtrunc (Qopp (inject_Z z)) = (- z)%Z.
Proof. unfold JS.Qtrunc. simpl. apply Z.quot_1_r. Qed.

(** [slice(-n)] for a whole number [n >= 1] keeps the last [n]. *)
Lemma slice_neg_positive {A} (xs : list A) (z : Z) :
  (0 < z)%Z ->
  JS.slice xs (JS.neg (JS.of_Z z)) = last_n (Z.to_nat z) xs.
Proof.
  intros Hz. unfold JS.slice, JS.of_Z, JS.neg, JS.ToIntegerOrInfinity.
  rewrite Qtrunc_neg_inject_Z.
  destruct (Z.ltb_spec (- z) 0); [|lia].
  unfold last_n. f_equal. lia.
Qed.

Lemma slice_neg_zero {A} (xs : list A) :
  JS.slice xs (JS.neg (JS.of_Z 0)) = xs.
Proof.
  unfold JS.slice, JS.of_Z, JS.neg, JS.ToIntegerOrInfinity.
  rewrite Qtrunc_neg_inject_Z.
  destruct (Z.ltb_spec (- 0) 0); [lia|].
  replace (Z.to_nat ((- 0) `min` Z.of_nat (length xs))) with 0 by lia.
  apply drop_0.
Qed.

Lemma Qtrunc_opp_nonneg (q : Q) :
  (0 <= q)%Q -> JS.Qtrunc (Qopp q) = (- Qfloor q)%Z.
Proof.
  destruct q as [n d]. unfold Qle, JS.Qtrunc, Qfloor. simpl. intros Hn.
  rewrite Z.quot_opp_l by lia. f_equal.
  apply Z.quot_div_nonneg; lia.
Qed.

Lemma slice_neg_at_least_one {A} (xs : list A) (q : Q) :
  (1 <= q)%Q ->
  JS.slice xs (JS.neg (JS.Num q)) = last_n (Z.to_nat (Qfloor q)) xs.
Proof.
  intros Hq.
  assert (H1 : (1 <= Qfloor q)%Z).
  { change 1%Z with (Qfloor (inject_Z 1)). by apply Qfloor_resp_le. }
  unfold JS.slice, JS.neg, JS.ToIntegerOrInfinity.
  rewrite Qtrunc_opp_nonneg
    by (eapply Qle_trans; [|exact Hq]; discriminate).
  destruct (Z.ltb_spec (- Qfloor q) 0); [|lia].
  unfold last_n. f_equal. lia.
Qed.

(** [slice(-q)] for [0 <= q < 1] is [slice(-0)], the whole array. *)
Lemma slice_neg_below_one {A} (xs : list A) (q : Q) :
  (0 <= q)%Q -> (q < 1)%Q -> JS.slice xs (JS.neg (JS.Num q)) = xs.
Proof.
  intros H0 H1.
  assert (Hfloor : Qfloor q = 0%Z).
  { assert (0 <= Qfloor q)%Z
      by (change 0%Z with (Qfloor (inject_Z 0)); by apply Qfloor_resp_le).
    assert (Qfloor q < 1)%Z; [|lia].
    rewrite Zlt_Qlt. eapply Qle_lt_trans; [apply Qfloor_le | exact H1]. }
  unfold JS.slice, JS.neg, JS.ToIntegerOrInfinity.
  rewrite Qtrunc_opp_nonneg, Hfloor by done.
  change (- 0 <? 0)%Z with false. cbv iota.
  replace (Z.to_nat _) with 0 by lia. apply drop_0.
Qed.

(** An empty string given as a filter is no filter. *)
Lemma matching_empty_string (u m : option string) (acts : list Activity) :
  matching (Some "") m acts = matching None m acts /\
  matching u (Some "") acts = matching u None acts.
Proof.
  unfold matching. split; apply list_filter_iff; intros a;
    unfold selected; cbn; intuition congruence.
Qed.

(** C7, as stated, speaks of every positive limit and of every filter
    that is supplied.  With the limit 0.5 the query on six records returns
    all six; and with the empty string supplied for the actor it returns a
    record of the actor "u2". *)
Lemma getActivityLogs_limit_below_one_returns_all :
  let result :=
    getActivityLogs Demo.sample_log None None (Some (JS.Num (1 # 2))) in
  let supplied :=
    getActivityLogs Demo.sample_log (Some "") None (Some (JS.of_Z 1)) in
  (0 < 1 # 2)%Q /\
  result = reverse Demo.sample_log /\
  length result = 6 /\
  ~ (inject_Z (Z.of_nat (length result)) <= 1 # 2)%Q /\
  supplied = [Demo.did "u2" "PUT" 6] /\
  ~ Forall (fun a => userId a = Some "") supplied.
Proof.
  split_and!; try (vm_compute; reflexivity).
  - vm_compute. congruence.
  - intros H. apply Forall_cons in H as [H _]. vm_compute in H. congruence.
Qed.

(** C7, amended. For every contents of the array and every limit of at
    least one (a number [>= 1], whole or not, or [Infinity]),
    [getActivityLogs] returns the last [floor(limit)] of the records
    selected by the actor and verb arguments, newest first: at most [limit]
    records, each of them selected, and with the records that were left
    out all older than the ones returned.  An argument selects when it is a
    non-empty string: the empty string is as good as none.  A limit from 0
    up to, but not including, 1 returns every selected record. *)
Theorem getActivityLogs_most_recent_first
    (acts : list Activity) (u m : option string) (limit : JS.number)
    (Hlimit : ActivityQueries.at_least_one limit) :
  let result := getActivityLogs acts u m (Some limit) in
  let n := match limit with
           | JS.Num q => Z.to_nat (Qfloor q)
           | _ => length acts
           end in
  length result <= n /\
  match limit with
  | JS.Num q => (inject_Z (Z.of_nat (length result)) <= q)%Q
  | _ => True
  end /\
  length result = n `min` length (matching u m acts) /\
  result = reverse (last_n n (matching u m acts)) /\
  (exists older, matching u m acts = older ++ reverse result) /\
  Forall (selected u m) result /\
  Forall (fun a => JS.truthy u = true -> userId a = u) result /\
  Forall (fun a => JS.truthy m = true -> Some (method a) = m) result /\
  (forall z, limit = JS.of_Z z -> n = Z.to_nat z) /\
  (forall q, (0 <= q)%Q -> (q < 1)%Q ->
     getActivityLogs acts u m (Some (JS.Num q))
     = reverse (matching u m acts)) /\
  matching (Some "") m acts = matching None m acts /\
  matching u (Some "") acts = matching u None acts.
Proof.
  intros result n.
  assert (Hres : result = reverse (last_n n (matching u m acts))).
  { subst result n. rewrite getActivityLogs_filtered.
    change (default (JS.of_Z 100) (Some limit)) with limit.
    destruct limit as [| | |q]; try done.
    - rewrite last_n_all; [done|]. apply length_filter.
    - by rewrite slice_neg_at_least_one. }
  assert (Hsel : Forall (selected u m) result).
  { rewrite Hres. apply Forall_reverse. unfold last_n.
    apply Forall_drop. unfold matching.
    apply Forall_forall. intros a Ha.
    by apply list_elem_of_filter in Ha as [? _]. }
  assert (Hlen : length result <= n).
  { rewrite Hres, length_reverse, length_last_n. lia. }
  split_and!; try done.
  - destruct limit as [| | |q]; try done.
    subst n. cbn in Hlimit.
    assert (1 <= Qfloor q)%Z
      by (change 1%Z with (Qfloor (inject_Z 1)); by apply Qfloor_resp_le).
    eapply Qle_trans; [|apply Qfloor_le].
    rewrite <- Zle_Qle. lia.
  - by rewrite Hres, length_reverse, length_last_n.
  - exists (take (length (matching u m acts) - n) (matching u m acts)).
    rewrite Hres, reverse_involutive. unfold last_n.
    by rewrite take_drop.
  - eapply Forall_impl; [exact Hsel|]. by intros a [? _].
  - eapply Forall_impl; [exact Hsel|]. by intros a [_ ?].
  - intros z ->. subst n. unfold JS.of_Z. by rewrite Qfloor_Z.
  - intros q H0 H1. rewrite getActivityLogs_filtered.
    change (default (JS.of_Z 100) (Some (JS.Num q))) with (JS.Num q).
    by rewrite slice_neg_below_one.
  - apply (matching_empty_string u m).
  - apply (matching_empty_string u m).
Qed.

Lemma getActivityLogs_most_recent_first_witness :
  ActivityQueries.at_least_one (JS.Num (5 # 2)) /\
  getActivityLogs Demo.sample_log (Some "u1") (Some "DELETE")
    (Some (JS.Num (5 # 2)))
  = [Demo.did "u1" "DELETE" 5; Demo.did "u1" "DELETE" 4].
Proof.
  assert (Hlimit : ActivityQueries.at_least_one (JS.Num (5 # 2)))
    by discriminate.
  split; [exact Hlimit|].
  destruct (getActivityLogs_most_recent_first
              Demo.sample_log (Some "u1") (Some "DELETE") _ Hlimit)
    as (_ & _ & _ & -> & _).
  vm_compute. reflexivity.
Defined.

Lemma route_limit_cases (requested : JS.number) :
  route_limit requested
  = if JS.number_truthy requested
    then JS.Math_min requested (JS.of_Z 1000) else JS.of_Z 100.
Proof.
  unfold route_limit, JS.number_or.
  by destruct (JS.number_truthy requested).
Qed.

Lemma route_limit_not_zero (requested : JS.number) :
  JS.is_zero (route_limit requested) = false.
Proof.
  rewrite route_limit_cases.
  destruct requested as [| | |q]; try reflexivity.
  unfold JS.number_truthy.
  destruct (Qeq_bool q 0) eqn:Hq; [reflexivity|].
  unfold JS.Math_min, JS.of_Z. simpl negb. cbv iota.
  destruct (Qle_bool q (inject_Z 1000)); simpl; [exact Hq | reflexivity].
Qed.

(** C10, as stated, has the behaviour of the limit [0] reachable through
    direct calls only.  It is reachable through the handler of
    [GET /activity-logs]: with [?limit=0.5] the handler passes 0.5, which
    is not [0], and on an array of 1001 records the answer is what the
    direct call with limit [0] returns, all 1001 records, more than the
    cap of 1000. *)
Lemma limit_zero_behaviour_through_route :
  let acts := replicate 1001 (Demo.did "u1" "POST" 1) in
  let answer := activity_logs_route acts None None (JS.Num (1 # 2)) in
  route_limit (JS.Num (1 # 2)) = JS.Num (1 # 2) /\
  JS.is_zero (route_limit (JS.Num (1 # 2))) = false /\
  answer = getActivityLogs acts None None (Some (JS.of_Z 0)) /\
  length answer = 1001.
Proof.
  intros acts answer. subst answer. unfold activity_logs_route.
  change (route_limit (JS.Num (1 # 2))) with (JS.Num (1 # 2)).
  rewrite !getActivityLogs_filtered.
  change (default (JS.of_Z 100) (Some (JS.Num (1 # 2))))
    with (JS.Num (1 # 2)).
  change (default (JS.of_Z 100) (Some (JS.of_Z 0))) with (JS.of_Z 0).
  rewrite slice_neg_below_one, slice_neg_zero by done.
  split_and!; reflexivity.
Qed.

(** C10, amended. With limit [0], [getActivityLogs] returns every selected
    record, newest first, since [slice(-0)] is [slice(0)].  The handler of
    [GET /activity-logs] never passes [0]: it replaces a falsy value of
    [Number(req.query.limit)] by [100] and takes the minimum with [1000],
    and the result is different from [0] for every requested value.  The
    behaviour is reachable through the handler all the same: a requested
    value strictly between 0 and 1 is not falsy, passes unchanged and is
    truncated to [-0] by [slice], so that the answer is the one of the
    limit [0]. *)
Theorem getActivityLogs_limit_zero
    (acts : list Activity) (u m : option string) (requested : JS.number) :
  getActivityLogs acts u m (Some (JS.of_Z 0)) = reverse (matching u m acts) /\
  length (getActivityLogs acts u m (Some (JS.of_Z 0)))
    = length (matching u m acts) /\
  route_limit requested
    = (if JS.number_truthy requested
       then JS.Math_min requested (JS.of_Z 1000) else JS.of_Z 100) /\
  JS.number_truthy (JS.of_Z 0) = false /\
  JS.number_truthy JS.NaN = false /\
  JS.is_zero (route_limit requested) = false /\
  (forall q, (0 < q)%Q -> (q < 1)%Q ->
     route_limit (JS.Num q) = JS.Num q /\
     activity_logs_route acts u m (JS.Num q)
     = getActivityLogs acts u m (Some (JS.of_Z 0))).
Proof.
  assert (H0 : getActivityLogs acts u m (Some (JS.of_Z 0))
               = reverse (matching u m acts)).
  { rewrite getActivityLogs_filtered.
    change (default (JS.of_Z 100) (Some (JS.of_Z 0))) with (JS.of_Z 0).
    by rewrite slice_neg_zero. }
  split_and!; try reflexivity.
  - exact H0.
  - by rewrite H0, length_reverse.
  - apply route_limit_cases.
  - apply route_limit_not_zero.
  - intros q Hpos Hlt.
    assert (Hroute : route_limit (JS.Num q) = JS.Num q).
    { rewrite route_limit_cases. unfold JS.number_truthy.
      destruct (Qeq_bool q 0) eqn:Hq.
      - apply Qeq_bool_eq in Hq. rewrite Hq in Hpos.
        by apply Qlt_irrefl in Hpos.
      - cbn [negb]. unfold JS.Math_min, JS.of_Z.
        destruct (Qle_bool q (inject_Z 1000)) eqn:Hle; [done|].
        assert (q <= inject_Z 1000)%Q as Hq'
          by (apply Qlt_le_weak; eapply Qlt_trans; [exact Hlt | done]).
        apply Qle_bool_iff in Hq'. congruence. }
    split; [exact Hroute|].
    unfold activity_logs_route. rewrite Hroute, H0.
    rewrite getActivityLogs_filtered.
    change (default (JS.of_Z 100) (Some (JS.Num q))) with (JS.Num q).
    rewrite slice_neg_below_one; [done| |done]. by apply Qlt_le_weak.
Qed.

(** Beside the limit [0]: a limit strictly between 0 and 1 is not falsy, passes the handler unchanged and is truncated to [-0]
    by [slice]; a negative limit passes too and turns into a count of
    records to leave out. *)
Remark fractional_limit_through_route (acts : list Activity)
    (u m : option string) :
  route_limit (JS.Num (1 # 2)) = JS.Num (1 # 2) /\
  activity_logs_route acts u m (JS.Num (1 # 2))
    = reverse (matching u m acts) /\
  route_limit (JS.of_Z (-1)) = JS.of_Z (-1) /\
  activity_logs_route acts u m (JS.of_Z (-1))
    = reverse (drop 1 (matching u m acts)).
Proof.
  unfold activity_logs_route.
  split_and!; try reflexivity; rewrite getActivityLogs_filtered.
  - unfold JS.slice.
    change (JS.ToIntegerOrInfinity _) with (JS.IInt 0).
    cbv iota beta zeta. change (0 <? 0)%Z with false. cbv iota.
    replace (Z.to_nat _) with 0 by lia. by rewrite drop_0.
  - unfold JS.slice.
    change (JS.ToIntegerOrInfinity _) with (JS.IInt 1).
    cbv iota beta zeta. change (1 <? 0)%Z with false. cbv iota.
    destruct (matching u m acts) as [|a l]; [done|].
    replace (Z.to_nat _) with 1 by (simpl length; lia). done.
Qed.

End ActivityLoggerFacts.

(* ===================================================================== *)
(** ** Properties of the rate limiting *)
(* ===================================================================== *)

Module ServerFacts.
Import Express Server.

(** *** The memory store *)

Lemma increment_in_window (o : Options) (store : Store)
    (key : option string) (now k R : Z) :
  store !! key = Some {| totalHits := k; resetTime := R |} ->
  now < R ->
  increment o store key now
  = (<[key := {| totalHits := k + 1; resetTime := R |}]> store,
     {| totalHits := k + 1; resetTime := R |}).
Proof.
  intros Hkey Hnow. unfold increment. rewrite Hkey. simpl.
  by destruct (Z.leb_spec R now); [lia|].
Qed.

Lemma increment_window_over (o : Options) (store : Store)
    (key : option string) (now : Z) :
  window_over store key now ->
  increment o store key now
  = (<[key := {| totalHits := 1; resetTime := now + windowMs o |}]> store,
     {| totalHits := 1; resetTime := now + windowMs o |}).
Proof.
  unfold window_over, increment. intros Hover.
  destruct (store !! key) as [[k R]|]; simpl in *.
  - by destruct (Z.leb_spec R now); [|lia].
  - by destruct (Z.leb_spec (now + windowMs o) now).
Qed.

Lemma middleware_counted (o : Options) (store : Store) (now : Z)
    (req : Request) :
  skip o req = JS.Ok false ->
  middleware o store now req
  = JS.Ok ((increment o store (req_ip req) now).1,
           verdict o (increment o store (req_ip req) now).2).
Proof.
  intros Hskip. unfold middleware, keyGenerator. rewrite Hskip.
  cbn [JS.bind]. by destruct (increment o store (req_ip req) now).
Qed.

Lemma middleware_skipped (o : Options) (store : Store) (now : Z)
    (req : Request) :
  skip o req = JS.Ok true ->
  middleware o store now req = JS.Ok (store, Next).
Proof. intros Hskip. unfold middleware. by rewrite Hskip. Qed.

(** *** Mount points *)

Lemma match_tokens_lit c ts s r :
  match_tokens (Lit c :: ts) s = Some r ->
  exists d s', s = String d s' /\ same_letter d c = true /\
               match_tokens ts s' = Some r.
Proof.
  destruct s as [|d s']; simpl; [discriminate|].
  destruct (same_letter d c) eqn:Hd; [eauto | discriminate].
Qed.

Lemma same_letter_slash d : same_letter d "/" = true -> d = "/"%char.
Proof.
  destruct d as [[] [] [] [] [] [] [] []]; vm_compute;
    (reflexivity || discriminate).
Qed.

Lemma same_letter_h d :
  same_letter d "h" = true ->
  Ascii.eqb d "/" = false /\ d <> "a"%char.
Proof.
  destruct d as [[] [] [] [] [] [] [] []]; vm_compute;
    (discriminate || (split; [reflexivity | discriminate])).
Qed.

(** A path that matches the payment-intent pattern is under [/api/], and
    what the role-based limiter sees of it starts with [/h] or [/H]: it
    is none of the bypass strings. *)
Lemma payment_path_gated path p' :
  mount "/api/hotels/*/bookings/payment-intent" path = Some p' ->
  exists p, mount "/api/" path = Some p /\ is_bypass_path p = false.
Proof.
  unfold mount at 1, layer_match.
  destruct (match_tokens _ path) as [[vals rest]|] eqn:Hm; [|discriminate].
  intros _.
  let ts := eval vm_compute in
    (tokens (drop_trailing_slash "/api/hotels/*/bookings/payment-intent"))
  in change (tokens _) with ts in Hm.
  apply match_tokens_lit in Hm as (d1 & s1 & -> & H1 & Hm).
  apply match_tokens_lit in Hm as (d2 & s2 & -> & H2 & Hm).
  apply match_tokens_lit in Hm as (d3 & s3 & -> & H3 & Hm).
  apply match_tokens_lit in Hm as (d4 & s4 & -> & H4 & Hm).
  apply match_tokens_lit in Hm as (d5 & s5 & -> & H5 & Hm).
  apply match_tokens_lit in Hm as (d6 & s6 & -> & H6 & _).
  apply same_letter_slash in H5 as ->.
  apply same_letter_h in H6 as [H6 Hna].
  exists (String "/" (String d6 s6)). split.
  - unfold mount, layer_match.
    let ts := eval vm_compute in (tokens (drop_trailing_slash "/api/"))
    in change (tokens _) with ts.
    cbn [match_tokens]. rewrite H1, H2, H3, H4.
    cbn [match_end at_boundary]. rewrite H6. simpl. reflexivity.
  - apply bool_decide_eq_false. unfold bypass_paths.
    rewrite !elem_of_cons, elem_of_nil.
    intros [H|[H|[H|[H|[]]]]]; injection H as H; congruence.
Qed.

(** *** Layers that fail

    A layer fails only on the text that a [*] of its pattern has taken:
    the layer at [/api/] never does. *)

Lemma match_tokens_literal (cs : list ascii) (s : string)
    (vals : list string) (r : string) :
  match_tokens (Lit <$> cs) s = Some (vals, r) -> vals = [].
Proof.
  revert s. induction cs as [|c cs IH]; intros s; cbn.
  - destruct (match_end s); cbn; congruence.
  - destruct s as [|d s']; [done|].
    destruct (same_letter d c); [apply IH | done].
Qed.

Lemma layer_error_api (path : string) : layer_error "/api/" path = None.
Proof.
  unfold layer_error, layer_match.
  change (tokens (drop_trailing_slash "/api/"))
    with (Lit <$> ["/"; "a"; "p"; "i"]%char).
  destruct (match_tokens _ path) as [[vals rest]|] eqn:Hm; [|done].
  by rewrite (match_tokens_literal _ _ _ _ Hm).
Qed.

Lemma mount_layer_error (mountpath path p : string) :
  mount mountpath path = Some p -> layer_error mountpath path = None.
Proof.
  unfold mount, layer_error. by destruct (layer_match mountpath path).
Qed.

Lemma use_bad_param {S : Type} (mountpath : string)
    (mw : S -> Z -> Request -> JS.result (S * outcome)) st now req message :
  layer_error mountpath (req_path req) = Some message ->
  use mountpath mw st now req = JS.Ok (st, Failed 400 message).
Proof.
  unfold use, mount, layer_error.
  destruct (layer_match mountpath (req_path req)); try done.
  by intros [= ->].
Qed.

Lemma use_api {S : Type}
    (mw : S -> Z -> Request -> JS.result (S * outcome)) st now req :
  use "/api/" mw st now req
  = match mount "/api/" (req_path req) with
    | Some p => mw st now (with_path req p)
    | None => JS.Ok (st, Next)
    end.
Proof. unfold use. by rewrite layer_error_api. Qed.

Lemma use_payment {S : Type}
    (mw : S -> Z -> Request -> JS.result (S * outcome)) st now req :
  use "/api/hotels/*/bookings/payment-intent" mw st now req
  = match mount "/api/hotels/*/bookings/payment-intent" (req_path req) with
    | Some p => mw st now (with_path req p)
    | None => JS.Ok (st, handed_on req)
    end.
Proof.
  unfold use, handed_on. destruct (mount _ _); [done|].
  by destruct (layer_error _ _).
Qed.

Lemma handed_on_payment req p :
  mount "/api/hotels/*/bookings/payment-intent" (req_path req) = Some p ->
  handed_on req = Next.
Proof.
  intros H. unfold handed_on. by rewrite (mount_layer_error _ _ _ H).
Qed.

Lemma handed_on_cases req :
  handed_on req = Next \/ exists message, handed_on req = Failed 400 message.
Proof.
  unfold handed_on. destruct (layer_error _ _); [right|left]; eauto.
Qed.

(** *** Sequences of requests *)

Section Serve.
Context {S : Type}.
Variable mw : S -> Z -> Request -> JS.result (S * outcome).

Lemma serve_cons_ok st now req rest st' out :
  mw st now req = JS.Ok (st', out) ->
  serve mw st ((now, req) :: rest)
  = (JS.Ok out :: (serve mw st' rest).1, (serve mw st' rest).2).
Proof. intros H. simpl. rewrite H. by destruct (serve mw st' rest). Qed.

Lemma serve_length st trace :
  length (serve mw st trace).1 = length trace.
Proof.
  revert st. induction trace as [|[now req] rest IH]; intros st; [done|].
  simpl. destruct (mw st now req) as [[st' out]|e].
  - specialize (IH st'). destruct (serve mw st' rest). simpl in *. lia.
  - specialize (IH st). destruct (serve mw st rest). simpl in *. lia.
Qed.

Lemma serve_app st trace1 trace2 :
  serve mw st (trace1 ++ trace2)
  = ((serve mw st trace1).1
       ++ (serve mw (serve mw st trace1).2 trace2).1,
     (serve mw (serve mw st trace1).2 trace2).2).
Proof.
  revert st. induction trace1 as [|[now req] rest IH]; intros st.
  - simpl. by destruct (serve mw st trace2).
  - simpl. destruct (mw st now req) as [[st' out]|e].
    + rewrite IH. by destruct (serve mw st' rest).
    + rewrite IH. by destruct (serve mw st rest).
Qed.
End Serve.

Lemma role_limiter_cases role :
  role_limiter role = hotelOwnerLimiter /\ max (role_limiter role) = 500 \/
  role_limiter role = userLimiter /\ max (role_limiter role) = 300 \/
  role_limiter role = anonLimiter /\ max (role_limiter role) = 100.
Proof. unfold role_limiter. repeat case_match; auto. Qed.

Lemma role_limiter_window role :
  windowMs (role_limiter role) = fifteen_minutes.
Proof. unfold role_limiter. by repeat case_match. Qed.

Lemma role_store_set role st store :
  role_store role (set_role_store role st store) = store.
Proof. unfold role_store, set_role_store. by repeat case_match. Qed.

Lemma verdict_count (o : Options) (n : nat) (R : Z) :
  verdict o {| totalHits := Z.of_nat n + 1; resetTime := R |}
  = if Z.of_nat n <? max o then Next else Respond 429 (message o).
Proof.
  unfold verdict. simpl.
  destruct (Z.ltb_spec (max o) (Z.of_nat n + 1)),
    (Z.ltb_spec (Z.of_nat n) (max o)); (done || lia).
Qed.

Section WithJwt.
Variable JWT_SECRET_KEY : string.
Variable jwt_verify : string -> string -> JS.result JwtPayload.

Abbreviation getUserRoleFromToken :=
  (getUserRoleFromToken JWT_SECRET_KEY jwt_verify).
Abbreviation role_of := (role_of JWT_SECRET_KEY jwt_verify).
Abbreviation roleBasedRateLimiter :=
  (roleBasedRateLimiter JWT_SECRET_KEY jwt_verify).
Abbreviation paymentLimiter := (paymentLimiter JWT_SECRET_KEY jwt_verify).
Abbreviation paymentLimiter_options :=
  (paymentLimiter_options JWT_SECRET_KEY jwt_verify).
Abbreviation role_layer := (role_layer JWT_SECRET_KEY jwt_verify).
Abbreviation admission := (admission JWT_SECRET_KEY jwt_verify).
Abbreviation gated_as := (gated_as JWT_SECRET_KEY jwt_verify).

(** *** Decoding the credential *)

Lemma getUserRoleFromToken_total token :
  exists role, getUserRoleFromToken token = JS.Ok role.
Proof.
  unfold Server.getUserRoleFromToken.
  destruct token as [token|]; [|eauto].
  destruct (String.eqb token ""); [eauto|].
  destruct (jwt_verify (cleanToken token) JWT_SECRET_KEY); simpl; eauto.
Qed.

Lemma getUserRoleFromToken_rejected token e :
  jwt_verify (cleanToken token) JWT_SECRET_KEY = JS.Throw e ->
  getUserRoleFromToken (Some token) = JS.Ok "anonymous".
Proof.
  intros Hv. unfold Server.getUserRoleFromToken.
  destruct (String.eqb token ""); [done|]. by rewrite Hv.
Qed.

Lemma getUserRoleFromToken_verified token payload :
  token <> "" ->
  jwt_verify (cleanToken token) JWT_SECRET_KEY = JS.Ok payload ->
  getUserRoleFromToken (Some token)
  = JS.Ok (JS.or_default (userRole payload) "user").
Proof.
  intros Hne Hv. unfold Server.getUserRoleFromToken.
  destruct (String.eqb_spec token ""); [done|]. by rewrite Hv.
Qed.

Lemma role_of_with_path req p : role_of (with_path req p) = role_of req.
Proof. reflexivity. Qed.

(** *** One request through [roleBasedRateLimiter] *)

Lemma bypass_test p :
  String.eqb p "/api/health" || String.eqb p "/api/status"
  || String.eqb p "/api/auth/validate-token"
  || String.eqb p "/api/auth/google-callback"
  = is_bypass_path p.
Proof.
  unfold is_bypass_path, bypass_paths.
  destruct (String.eqb_spec p "/api/health") as [->|H1]; [done|].
  destruct (String.eqb_spec p "/api/status") as [->|H2]; [done|].
  destruct (String.eqb_spec p "/api/auth/validate-token") as [->|H3];
    [done|].
  destruct (String.eqb_spec p "/api/auth/google-callback") as [->|H4];
    [done|].
  symmetry. apply bool_decide_eq_false.
  rewrite !elem_of_cons, elem_of_nil. tauto.
Qed.

Lemma set_role_store_same role st :
  set_role_store role st (role_store role st) = st.
Proof.
  unfold set_role_store, role_store. destruct st.
  by repeat case_match.
Qed.

(** The limiter picked for a role other than ["admin"], and the store it
    counts in. *)
Lemma roleBasedRateLimiter_role st now req role :
  role_of req = JS.Ok role ->
  roleBasedRateLimiter st now req
  = if is_bypass_path (req_path req) then JS.Ok (st, Next)
    else if String.eqb role "admin" then JS.Ok (st, Next)
    else
      let r := increment (role_limiter role) (role_store role st)
                 (req_ip req) now in
      JS.Ok (set_role_store role st r.1, verdict (role_limiter role) r.2).
Proof.
  intros Hrole. unfold Server.roleBasedRateLimiter.
  rewrite bypass_test. destruct (is_bypass_path _); [done|].
  unfold Server.role_of in Hrole. rewrite Hrole. cbn [JS.bind].
  unfold role_limiter, role_store, set_role_store.
  destruct (String.eqb role "admin"); [done|].
  destruct (String.eqb role "hotel_owner");
    [|destruct (String.eqb role "user")];
    by rewrite middleware_counted.
Qed.

Lemma role_layer_gated st now req role key :
  role <> "admin" ->
  gated_as role key req ->
  role_layer st now req
  = JS.Ok
      (set_role_store role st
         (increment (role_limiter role) (role_store role st) key now).1,
       verdict (role_limiter role)
         (increment (role_limiter role) (role_store role st) key now).2).
Proof.
  intros Hna (Hrole & Hip & p & Hmount & Hbypass).
  unfold Server.role_layer, use. rewrite Hmount.
  rewrite (roleBasedRateLimiter_role _ _ _ role) by done.
  simpl req_path. rewrite Hbypass.
  destruct (String.eqb_spec role "admin"); [done|].
  simpl. by rewrite Hip.
Qed.

(** Inside a live window every gated request of the client adds one to
    its count. *)
Lemma serve_in_window role key :
  role <> "admin" ->
  forall trace st (k R : Z),
    role_store role st !! key
      = Some {| totalHits := k; resetTime := R |} ->
    Forall (fun '(t, req) => gated_as role key req /\ t < R) trace ->
    role_store role (serve role_layer st trace).2 !! key
      = Some {| totalHits := k + Z.of_nat (length trace);
                resetTime := R |} /\
    forall i, (i < length trace)%nat ->
      (serve role_layer st trace).1 !! i
      = Some (JS.Ok (verdict (role_limiter role)
                       {| totalHits := k + Z.of_nat i + 1;
                          resetTime := R |})).
Proof.
  intros Hna. induction trace as [|[t req] rest IH];
    intros st k R Hkey Hall.
  - simpl. split; [by rewrite Z.add_0_r | intros i Hi; simpl in Hi; lia].
  - apply Forall_cons in Hall as [[Hgated Ht] Hrest].
    pose proof (role_layer_gated st t req role key Hna Hgated) as Hstep.
    rewrite (increment_in_window _ _ _ _ k R) in Hstep by done.
    simpl in Hstep.
    rewrite (serve_cons_ok _ _ _ _ _ _ _ Hstep). simpl.
    destruct (IH (set_role_store role st
                    (<[key := {| totalHits := k + 1; resetTime := R |}]>
                       (role_store role st)))
                (k + 1) R) as [Hfinal Houts].
    { by rewrite role_store_set, lookup_insert_eq. }
    { done. }
    split.
    + rewrite Hfinal. do 2 f_equal. lia.
    + intros [|i] Hi; simpl.
      * by rewrite Z.add_0_r.
      * rewrite Houts by lia. do 4 f_equal. lia.
Qed.

Lemma verdict_first_hit role R :
  verdict (role_limiter role) {| totalHits := 1; resetTime := R |} = Next.
Proof.
  unfold verdict. simpl.
  destruct (role_limiter_cases role) as [[_ ->]|[[_ ->]|[_ ->]]]; done.
Qed.

(** C1, amended. Take the role-based layer, a role other than ["admin"]
    and one client address.  Let a sequence of requests of that client,
    all resolved to that role and all handed to the limiter (under
    [/api/], not bypassed), start when the client has no live window and
    stay within fifteen minutes of its first request.  Then request
    number [i+1] is passed on when [i] is below the ceiling of the role
    and is answered with status 429 and the message of the role's
    limiter otherwise; a request of the client made once the fifteen
    minutes are over is passed on again.  The ceilings are 300 for
    ["user"], 500 for ["hotel_owner"] and 100 for ["anonymous"]. *)
Theorem role_ceiling_per_client
    (role : string) (key : option string) (st : Limiters)
    (t0 : Z) (req0 : Request) (rest : list (Z * Request))
    (t_later : Z) (req_later : Request)
    (Hrole : role <> "admin")
    (Hfresh : window_over (role_store role st) key t0)
    (Hfirst : gated_as role key req0)
    (Hrest : Forall (fun '(t, req) =>
                       gated_as role key req /\
                       t < t0 + fifteen_minutes) rest)
    (Hlater : gated_as role key req_later)
    (Hover : t0 + fifteen_minutes <= t_later) :
  let trace := (t0, req0) :: rest in
  let limiter := role_limiter role in
  (forall i, (i < length trace)%nat ->
     (serve role_layer st trace).1 !! i
     = Some (JS.Ok (if Z.of_nat i <? max limiter then Next
                    else Respond 429 (message limiter)))) /\
  (serve role_layer st (trace ++ [(t_later, req_later)])).1
    !! length trace = Some (JS.Ok Next) /\
  windowMs limiter = 900000 /\
  (role_limiter "user" = userLimiter /\ max userLimiter = 300 /\
   message userLimiter
   = "Too many requests from this IP, please try again later. (User Rate Limit)") /\
  (role_limiter "hotel_owner" = hotelOwnerLimiter /\
   max hotelOwnerLimiter = 500) /\
  (role_limiter "anonymous" = anonLimiter /\ max anonLimiter = 100).
Proof.
  intros trace limiter.
  pose proof (role_layer_gated st t0 req0 role key Hrole Hfirst) as Hstep.
  rewrite increment_window_over in Hstep by done.
  rewrite role_limiter_window in Hstep. simpl in Hstep.
  set (st1 := set_role_store role st _) in Hstep.
  destruct (serve_in_window role key Hrole rest st1 1
              (t0 + fifteen_minutes)) as [Hfinal Houts].
  { subst st1. by rewrite role_store_set, lookup_insert_eq. }
  { done. }
  assert (Hserve : serve role_layer st trace
                   = (JS.Ok Next :: (serve role_layer st1 rest).1,
                      (serve role_layer st1 rest).2)).
  { subst trace. rewrite (serve_cons_ok _ _ _ _ _ _ _ Hstep).
    by rewrite verdict_first_hit. }
  split_and!; try reflexivity.
  - intros [|i] Hi; rewrite Hserve; simpl.
    + destruct (role_limiter_cases role) as [[_ H]|[[_ H]|[_ H]]];
        subst limiter; by rewrite H.
    + simpl in Hi. rewrite Houts by lia.
      replace (1 + Z.of_nat i + 1) with (Z.of_nat (S i) + 1) by lia.
      by rewrite verdict_count.
  - rewrite serve_app, Hserve. cbn [fst snd].
    rewrite lookup_app_r by (simpl; rewrite serve_length; simpl; lia).
    replace (length trace - length _)%nat with 0%nat
      by (simpl; rewrite serve_length; lia).
    pose proof (role_layer_gated (serve role_layer st1 rest).2
                  t_later req_later role key Hrole Hlater) as Hstep'.
    rewrite increment_window_over in Hstep'
      by (unfold window_over; rewrite Hfinal; simpl; lia).
    simpl in Hstep'. rewrite verdict_first_hit in Hstep'.
    by rewrite (serve_cons_ok _ _ _ _ _ _ _ Hstep').
  - apply role_limiter_window.
Qed.

(** *** The administrator *)

Lemma with_paymentStore_same st :
  with_paymentStore st (paymentStore st, Next) = (st, Next).
Proof. by destruct st. Qed.

Lemma roleBasedRateLimiter_admin st now req :
  role_of req = JS.Ok "admin" ->
  roleBasedRateLimiter st now req = JS.Ok (st, Next).
Proof.
  intros Hrole. rewrite (roleBasedRateLimiter_role _ _ _ _ Hrole).
  by destruct (is_bypass_path _).
Qed.

Lemma paymentLimiter_admin st now req :
  role_of req = JS.Ok "admin" ->
  paymentLimiter st now req = JS.Ok (st, Next).
Proof.
  intros Hrole. unfold Server.paymentLimiter.
  rewrite middleware_skipped.
  - cbn [JS.bind]. by rewrite with_paymentStore_same.
  - simpl. unfold Server.role_of in Hrole. by rewrite Hrole.
Qed.

Lemma admission_admin st now req :
  role_of req = JS.Ok "admin" ->
  admission st now req = JS.Ok (st, handed_on req).
Proof.
  intros Hrole. unfold Server.admission. rewrite use_api.
  assert (Hfirst :
    match mount "/api/" (req_path req) with
    | Some p => roleBasedRateLimiter st now (with_path req p)
    | None => JS.Ok (st, Next)
    end = JS.Ok (st, Next)).
  { destruct (mount "/api/" (req_path req)); [|done].
    by apply roleBasedRateLimiter_admin. }
  rewrite Hfirst. cbn [JS.bind snd fst]. clear Hfirst.
  rewrite use_payment.
  destruct (mount _ (req_path req)) as [p|] eqn:Hp; [|reflexivity].
  rewrite (handed_on_payment _ _ Hp).
  by apply paymentLimiter_admin.
Qed.

(** C5. A request whose credential resolves to ["admin"] is passed on
    by the role-based limiter and by the payment limiter without being
    counted; any sequence of such requests, however long and however
    timed, leaves every store as it was and is never answered by a
    limiter.  Each request passes both layers; the one exception is a
    request for the payment-intent pattern whose hotel part cannot be
    decoded, on which the payment layer fails with status 400 before its
    limiter is asked. *)
Theorem admin_never_rate_limited
    (st : Limiters) (trace : list (Z * Request))
    (Hadmin : Forall (fun '(_, req) => role_of req = JS.Ok "admin")
                trace) :
  serve admission st trace
  = (map (fun tr => JS.Ok (handed_on tr.2)) trace, st) /\
  (Forall (fun tr =>
             layer_error "/api/hotels/*/bookings/payment-intent"
               (req_path tr.2) = None) trace ->
   serve admission st trace = (map (fun _ => JS.Ok Next) trace, st)) /\
  Forall (fun '(now, req) =>
            (handed_on req = Next \/
             exists message, handed_on req = Failed 400 message) /\
            forall st',
              roleBasedRateLimiter st' now req = JS.Ok (st', Next) /\
              paymentLimiter st' now req = JS.Ok (st', Next) /\
              admission st' now req = JS.Ok (st', handed_on req)) trace.
Proof.
  assert (Hserve : serve admission st trace
                   = (map (fun tr => JS.Ok (handed_on tr.2)) trace, st)).
  { induction Hadmin as [|[now req] rest Hreq _ IH]; [done|].
    rewrite (serve_cons_ok _ _ _ _ _ _ _ (admission_admin st now req Hreq)).
    by rewrite IH. }
  split_and!.
  - exact Hserve.
  - intros Hdecoded. rewrite Hserve. f_equal.
    clear Hserve Hadmin.
    induction Hdecoded as [|[now req] rest Hreq _ IH]; [done|].
    cbn [map snd] in *. rewrite IH. unfold handed_on. by rewrite Hreq.
  - eapply Forall_impl; [exact Hadmin|].
    intros [now req] Hreq. split; [apply handed_on_cases|].
    intros st'. split_and!.
    + by apply roleBasedRateLimiter_admin.
    + by apply paymentLimiter_admin.
    + by apply admission_admin.
Qed.

(** *** Rejected and role-less credentials *)

Lemma paymentLimiter_role st now req role :
  role_of req = JS.Ok role ->
  paymentLimiter st now req
  = if String.eqb role "admin" then JS.Ok (st, Next)
    else
      JS.Ok (with_paymentStore st
               ((increment paymentLimiter_options (paymentStore st)
                   (req_ip req) now).1,
                verdict paymentLimiter_options
                  (increment paymentLimiter_options (paymentStore st)
                     (req_ip req) now).2)).
Proof.
  intros Hrole.
  destruct (String.eqb role "admin") eqn:Hadm.
  - apply String.eqb_eq in Hadm as ->. by apply paymentLimiter_admin.
  - unfold Server.paymentLimiter. rewrite middleware_counted; [done|].
    simpl. unfold Server.role_of in Hrole. rewrite Hrole. simpl.
    by rewrite Hadm.
Qed.

(** The two layers read a request only through its path, its address
    and the role of its credential. *)
Lemma admission_same st now req1 req2 :
  req_path req1 = req_path req2 ->
  req_ip req1 = req_ip req2 ->
  role_of req1 = role_of req2 ->
  role_layer st now req1 = role_layer st now req2 /\
  admission st now req1 = admission st now req2.
Proof.
  intros Hpath Hip Hroles.
  destruct (getUserRoleFromToken_total (extract_token req1))
    as [role Hrole1].
  assert (Hrole2 : role_of req2 = JS.Ok role) by by rewrite <- Hroles.
  assert (Hlayer : role_layer st now req1 = role_layer st now req2).
  { unfold Server.role_layer. rewrite !use_api, Hpath.
    destruct (mount "/api/" (req_path req2)) as [p|]; [|done].
    rewrite (roleBasedRateLimiter_role _ _ (with_path req1 p) role)
      by done.
    rewrite (roleBasedRateLimiter_role _ _ (with_path req2 p) role)
      by done.
    simpl. by rewrite Hip. }
  split; [done|].
  unfold Server.admission. fold (role_layer st now req1).
  fold (role_layer st now req2). rewrite Hlayer.
  destruct (role_layer st now req2) as [[st' out]|e]; [|done].
  cbn [JS.bind fst snd]. destruct out; [|done..].
  rewrite !use_payment, Hpath.
  destruct (mount _ (req_path req2)) as [p|];
    [|unfold handed_on; by rewrite Hpath].
  rewrite (paymentLimiter_role _ _ (with_path req1 p) role) by done.
  rewrite (paymentLimiter_role _ _ (with_path req2 p) role) by done.
  simpl. by rewrite Hip.
Qed.

(** Neither layer throws. *)
Lemma admission_total st now req :
  exists r, admission st now req = JS.Ok r.
Proof.
  destruct (getUserRoleFromToken_total (extract_token req)) as [role Hrole].
  unfold Server.admission. rewrite use_api.
  assert (Hfirst : exists r,
    match mount "/api/" (req_path req) with
    | Some p => roleBasedRateLimiter st now (with_path req p)
    | None => JS.Ok (st, Next)
    end = JS.Ok r).
  { destruct (mount "/api/" (req_path req)) as [p|]; [|eauto].
    rewrite (roleBasedRateLimiter_role _ _ _ role) by done.
    repeat case_match; eauto. }
  destruct Hfirst as [[st' out] ->]. cbn [JS.bind fst snd].
  destruct out; [|eauto..].
  rewrite use_payment.
  destruct (mount _ (req_path req)) as [p|]; [|eauto].
  rewrite (paymentLimiter_role _ _ _ role) by done.
  case_match; eauto.
Qed.

(** C6. A request whose credential [jwt.verify] rejects (whatever the
    error: bad signature, malformed, expired) and a request without a
    credential both resolve to ["anonymous"]; with the same address and
    path they get the same answer from the role-based layer and from
    both layers together, and leave the same state, from every state
    and at every time.  When the layer does not bypass them, the limiter
    that counts them is the anonymous one, whose ceiling is 100 per
    fifteen minutes.  Decoding returns a role for every input: it never
    throws. *)
Theorem rejected_credential_treated_as_absent
    (st : Limiters) (now : Z) (req_bad req_none : Request)
    (token e : string)
    (Htoken : extract_token req_bad = Some token)
    (Hrejected : jwt_verify (cleanToken token) JWT_SECRET_KEY
                 = JS.Throw e)
    (Hnone : extract_token req_none = None)
    (Hip : req_ip req_bad = req_ip req_none)
    (Hpath : req_path req_bad = req_path req_none) :
  role_of req_bad = JS.Ok "anonymous" /\
  role_of req_none = JS.Ok "anonymous" /\
  role_layer st now req_bad = role_layer st now req_none /\
  admission st now req_bad = admission st now req_none /\
  (forall p,
     mount "/api/" (req_path req_bad) = Some p ->
     is_bypass_path p = false ->
     role_layer st now req_bad
     = JS.Ok (with_anonStore st
                ((increment anonLimiter (anonStore st)
                    (req_ip req_bad) now).1,
                 verdict anonLimiter
                   (increment anonLimiter (anonStore st)
                      (req_ip req_bad) now).2))) /\
  max anonLimiter = 100 /\
  windowMs anonLimiter = 900000 /\
  (forall tok, exists role, getUserRoleFromToken tok = JS.Ok role) /\
  (exists r, admission st now req_bad = JS.Ok r).
Proof.
  assert (Hbad : role_of req_bad = JS.Ok "anonymous").
  { unfold Server.role_of. rewrite Htoken.
    by apply (getUserRoleFromToken_rejected _ e). }
  assert (Hnone' : role_of req_none = JS.Ok "anonymous").
  { unfold Server.role_of. by rewrite Hnone. }
  destruct (admission_same st now req_bad req_none Hpath Hip)
    as [Hlayer Hadm]; [by rewrite Hbad, Hnone'|].
  split_and!; try done.
  - intros p Hmount Hbypass.
    apply (role_layer_gated _ _ _ "anonymous" (req_ip req_bad));
      [discriminate|].
    split_and!; eauto.
  - apply getUserRoleFromToken_total.
  - apply admission_total.
Qed.

(** C9. A credential that [jwt.verify] accepts and whose payload has no
    [userRole] resolves to ["user"], not to ["anonymous"]; a request
    carrying it that the role-based layer does not bypass is counted by
    the user limiter, whose ceiling is 300, not by the anonymous one,
    whose ceiling is 100. *)
Theorem verified_credential_without_role_is_user
    (st : Limiters) (now : Z) (req : Request) (token p : string)
    (payload : JwtPayload)
    (Htoken : extract_token req = Some token)
    (Hnonempty : token <> "")
    (Hverified : jwt_verify (cleanToken token) JWT_SECRET_KEY
                 = JS.Ok payload)
    (Hnorole : userRole payload = None)
    (Hmount : mount "/api/" (req_path req) = Some p)
    (Hbypass : is_bypass_path p = false) :
  getUserRoleFromToken (Some token) = JS.Ok "user" /\
  role_of req = JS.Ok "user" /\
  role_of req <> JS.Ok "anonymous" /\
  role_layer st now req
  = JS.Ok (with_userStore st
             ((increment userLimiter (userStore st) (req_ip req) now).1,
              verdict userLimiter
                (increment userLimiter (userStore st)
                   (req_ip req) now).2)) /\
  max userLimiter = 300 /\
  max anonLimiter = 100.
Proof.
  assert (Huser : getUserRoleFromToken (Some token) = JS.Ok "user").
  { rewrite (getUserRoleFromToken_verified _ payload) by done.
    by rewrite Hnorole. }
  assert (Hrole : role_of req = JS.Ok "user").
  { unfold Server.role_of. by rewrite Htoken. }
  split_and!; try done.
  - by rewrite Hrole.
  - apply (role_layer_gated _ _ _ "user" (req_ip req)); [discriminate|].
    split_and!; eauto.
Qed.

(** *** The payment limiter on top of the role limiter *)

Abbreviation payment_request_of :=
  (payment_request_of JWT_SECRET_KEY jwt_verify).
Abbreviation stacked := (stacked JWT_SECRET_KEY jwt_verify).

Lemma paymentStore_set_role_store role st store :
  paymentStore (set_role_store role st store) = paymentStore st.
Proof. unfold set_role_store. by repeat case_match. Qed.

Lemma role_store_with_paymentStore role st r :
  role_store role (with_paymentStore st r).1 = role_store role st.
Proof. unfold role_store. by repeat case_match. Qed.

Lemma admission_payment st now req role key :
  role <> "admin" ->
  payment_request_of role key req ->
  admission st now req = JS.Ok (stacked role st now req).
Proof.
  intros Hna (Hrole & Hip & p' & Hpay).
  destruct (payment_path_gated _ _ Hpay) as (p & Hmount & Hbypass).
  unfold Server.admission. fold (role_layer st now req).
  rewrite (role_layer_gated st now req role key Hna)
    by (split_and!; eauto).
  cbn [JS.bind fst snd]. unfold Server.stacked. rewrite Hip.
  cbv zeta. cbn [fst snd].
  destruct (verdict (role_limiter role) _); [|done..].
  unfold use. rewrite Hpay.
  rewrite (paymentLimiter_role _ _ _ role) by done.
  destruct (String.eqb_spec role "admin"); [done|].
  simpl req_ip. by rewrite paymentStore_set_role_store, Hip.
Qed.

Lemma admission_elsewhere st now req :
  layer_match "/api/hotels/*/bookings/payment-intent" (req_path req)
  = NoMatch ->
  admission st now req = role_layer st now req.
Proof.
  intros Hnone. unfold Server.admission. fold (role_layer st now req).
  destruct (role_layer st now req) as [[st' out]|e]; [|done].
  cbn [JS.bind fst snd]. unfold use, mount, layer_error.
  rewrite Hnone. by destruct out.
Qed.

(** The role-based layer never throws and never touches the store of the
    payment limiter. *)
Lemma role_layer_paymentStore st now req :
  exists st' out,
    role_layer st now req = JS.Ok (st', out) /\
    paymentStore st' = paymentStore st.
Proof.
  destruct (getUserRoleFromToken_total (extract_token req)) as [role Hrole].
  unfold Server.role_layer. rewrite use_api.
  destruct (mount "/api/" (req_path req)) as [p|]; [|by eauto].
  rewrite (roleBasedRateLimiter_role _ _ _ role) by done.
  destruct (is_bypass_path _); [by eauto|].
  destruct (String.eqb role "admin"); [by eauto|].
  cbv zeta. do 2 eexists. split; [reflexivity|].
  apply paymentStore_set_role_store.
Qed.

(** A request for the payment-intent pattern whose hotel part cannot be
    decoded never reaches the payment limiter: when the role-based layer
    passes it on, the payment layer fails with status 400, and the store
    of the payment limiter is as it was. *)
Lemma admission_undecodable st now req message :
  layer_error "/api/hotels/*/bookings/payment-intent" (req_path req)
  = Some message ->
  exists st' out,
    role_layer st now req = JS.Ok (st', out) /\
    admission st now req
    = JS.Ok (st', match out with
                  | Next => Failed 400 message
                  | _ => out
                  end) /\
    paymentStore st' = paymentStore st.
Proof.
  intros Hbad.
  destruct (role_layer_paymentStore st now req) as (st' & out & Hrl & Hps).
  exists st', out. split_and!; [done| |done].
  unfold Server.admission. fold (role_layer st now req). rewrite Hrl.
  cbn [JS.bind fst snd]. destruct out; [|done..].
  by apply use_bad_param.
Qed.

Lemma stacked_in_window role st now req key k R R' :
  req_ip req = key ->
  role_store role st !! key
    = Some {| totalHits := k; resetTime := R |} ->
  paymentStore st !! key
    = Some {| totalHits := k `min` max (role_limiter role);
              resetTime := R' |} ->
  now < R -> now < R' ->
  let st' := (stacked role st now req).1 in
  (stacked role st now req).2 = payment_expected role k /\
  role_store role st' !! key
    = Some {| totalHits := k + 1; resetTime := R |} /\
  paymentStore st' !! key
    = Some {| totalHits := (k + 1) `min` max (role_limiter role);
              resetTime := R' |}.
Proof.
  intros Hip Hrs Hps Hnow Hnow'. unfold Server.stacked, payment_expected.
  rewrite Hip.
  rewrite (increment_in_window _ _ _ _ _ _ Hrs Hnow).
  rewrite (increment_in_window _ _ _ _ _ _ Hps Hnow').
  cbv zeta. cbn [fst snd].
  assert (Hv : verdict (role_limiter role)
                 {| totalHits := k + 1; resetTime := R |}
               = if max (role_limiter role) <? k + 1
                 then Respond 429 (message (role_limiter role))
                 else Next) by reflexivity.
  rewrite Hv. clear Hv.
  destruct (Z.ltb_spec (max (role_limiter role)) (k + 1)) as [Hout|Hin].
  - cbn [fst snd]. split_and!; [done | |].
    + by rewrite role_store_set, lookup_insert_eq.
    + rewrite paymentStore_set_role_store, Hps. do 2 f_equal. lia.
  - replace (k `min` max (role_limiter role)) with k by lia.
    split_and!.
    + reflexivity.
    + rewrite role_store_with_paymentStore, role_store_set.
      by rewrite lookup_insert_eq.
    + simpl. rewrite lookup_insert_eq. do 2 f_equal. lia.
Qed.

Lemma serve_payment_in_window role key :
  role <> "admin" ->
  forall trace st (k R R' : Z),
    role_store role st !! key
      = Some {| totalHits := k; resetTime := R |} ->
    paymentStore st !! key
      = Some {| totalHits := k `min` max (role_limiter role);
                resetTime := R' |} ->
    Forall (fun '(t, req) =>
              payment_request_of role key req /\ t < R /\ t < R')
           trace ->
    forall i, (i < length trace)%nat ->
      (serve admission st trace).1 !! i
      = Some (JS.Ok (payment_expected role (k + Z.of_nat i))).
Proof.
  intros Hna. induction trace as [|[t req] rest IH];
    intros st k R R' Hrs Hps Hall i Hi; [simpl in Hi; lia|].
  apply Forall_cons in Hall as [(Hreq & Ht & Ht') Hrest].
  pose proof (admission_payment st t req role key Hna Hreq) as Hstep.
  destruct Hreq as (_ & Hip & _).
  destruct (stacked_in_window role st t req key k R R' Hip Hrs Hps Ht Ht')
    as (Hout & Hrs' & Hps').
  destruct (stacked role st t req) as [st' out].
  cbn [fst snd] in Hout, Hrs', Hps'. subst out.
  rewrite (serve_cons_ok _ _ _ _ _ _ _ Hstep). cbn [fst snd].
  destruct i as [|i]; simpl.
  - by rewrite Z.add_0_r.
  - simpl in Hi.
    rewrite (IH st' (k + 1) R R' Hrs' Hps' Hrest i) by lia.
    do 3 f_equal. lia.
Qed.

Lemma stacked_fresh role st now req key :
  req_ip req = key ->
  window_over (role_store role st) key now ->
  window_over (paymentStore st) key now ->
  let st' := (stacked role st now req).1 in
  (stacked role st now req).2 = Next /\
  role_store role st' !! key
    = Some {| totalHits := 1; resetTime := now + fifteen_minutes |} /\
  paymentStore st' !! key
    = Some {| totalHits := 1 `min` max (role_limiter role);
              resetTime := now + fifteen_minutes |}.
Proof.
  intros Hip Hrs Hps. unfold Server.stacked. rewrite Hip.
  rewrite !increment_window_over by done.
  rewrite role_limiter_window. cbv zeta. cbn [fst snd].
  rewrite verdict_first_hit.
  replace (1 `min` max (role_limiter role)) with 1
    by (destruct (role_limiter_cases role) as [[_ ->]|[[_ ->]|[_ ->]]];
        lia).
  split_and!.
  - reflexivity.
  - rewrite role_store_with_paymentStore, role_store_set.
    by rewrite lookup_insert_eq.
  - simpl. by rewrite lookup_insert_eq.
Qed.

Lemma payment_expected_cases role (n : nat) :
  payment_expected role (Z.of_nat n)
  = if Z.of_nat n <? 50 then Next
    else if Z.of_nat n <? max (role_limiter role)
         then Respond 429
                "Too many payment requests, please try again later."
         else Respond 429 (message (role_limiter role)).
Proof.
  unfold payment_expected.
  destruct (role_limiter_cases role) as [[_ ->]|[[_ ->]|[_ ->]]];
    repeat case_match; try done;
    repeat match goal with
           | H : (_ <? _) = true |- _ => apply Z.ltb_lt in H
           | H : (_ <? _) = false |- _ => apply Z.ltb_ge in H
           end; lia.
Qed.


End WithJwt.

(** *** The ceilings on concrete traffic *)

Lemma demo_user_gated path ip p :
  mount "/api/" path = Some p ->
  is_bypass_path p = false ->
  gated_as Demo.secret Demo.verify "user" (Some ip)
    (Demo.get path Demo.as_user ip).
Proof. intros Hm Hb. split_and!; [reflexivity | reflexivity | eauto]. Qed.

Lemma role_ceiling_per_client_witness :
  let req := Demo.get "/api/hotels/search" Demo.as_user "203.0.113.9" in
  let run := serve (role_layer Demo.secret Demo.verify) fresh_limiters in
  (run (Demo.burst 301 1000 req)).1 !! 299%nat = Some (JS.Ok Next) /\
  (run (Demo.burst 301 1000 req)).1 !! 300%nat
  = Some (JS.Ok (Respond 429
       "Too many requests from this IP, please try again later. (User Rate Limit)")) /\
  (run (Demo.burst 301 1000 req ++ [(901000, req)])).1 !! 301%nat
  = Some (JS.Ok Next).
Proof.
  intros req run.
  assert (Hgated : gated_as Demo.secret Demo.verify "user"
                     (Some "203.0.113.9") req).
  { by apply (demo_user_gated _ _ "/hotels/search"). }
  assert (Hrole : "user" <> "admin") by discriminate.
  assert (Hfresh : window_over (role_store "user" fresh_limiters)
                     (Some "203.0.113.9") 1000) by exact I.
  assert (Hrest : Forall (fun '(t, r) =>
                    gated_as Demo.secret Demo.verify "user"
                      (Some "203.0.113.9") r /\
                    t < 1000 + fifteen_minutes)
                    (Demo.burst 300 1000 req)).
  { apply Forall_replicate. split; [exact Hgated | reflexivity]. }
  assert (Hover : 1000 + fifteen_minutes <= 901000)
    by (vm_compute; discriminate).
  destruct (role_ceiling_per_client Demo.secret Demo.verify
              "user" (Some "203.0.113.9") fresh_limiters 1000 req
              (Demo.burst 300 1000 req) 901000 req
              Hrole Hfresh Hgated Hrest Hgated Hover)
    as (Houts & Hlater & _).
  split_and!.
  - apply (Houts 299%nat). vm_compute. lia.
  - apply (Houts 300%nat). vm_compute. lia.
  - exact Hlater.
Defined.

(** C1, as stated, speaks of the requests of all callers of a role.  The
    limiters count per client address: after 300 requests of one [user]
    client, the 301st request of the window, made by a [user] client at
    another address, is passed on. *)
Lemma role_ceiling_not_shared_between_clients :
  let a := Demo.get "/api/hotels/search" Demo.as_user "203.0.113.9" in
  let b := Demo.get "/api/hotels/search" Demo.as_user "198.51.100.4" in
  let trace := Demo.burst 300 1000 a ++ [(2000, b)] in
  Forall (fun '(t, r) =>
            role_of Demo.secret Demo.verify r = JS.Ok "user" /\
            mount "/api/" (req_path r) = Some "/hotels/search" /\
            1000 <= t < 1000 + fifteen_minutes) trace /\
  length trace = 301%nat /\
  (serve (role_layer Demo.secret Demo.verify) fresh_limiters trace).1
    !! 300%nat = Some (JS.Ok Next).
Proof.
  split_and!.
  - apply Forall_app. split.
    + apply Forall_replicate. split_and!; try reflexivity; by vm_compute.
    + apply Forall_singleton. split_and!; try reflexivity; by vm_compute.
  - reflexivity.
  - vm_compute. reflexivity.
Qed.

Lemma admin_never_rate_limited_witness :
  let req := Demo.get "/api/hotels/7/bookings/payment-intent"
               Demo.as_admin "203.0.113.9" in
  serve (admission Demo.secret Demo.verify) fresh_limiters
    (Demo.burst 1000 1000 req)
  = (replicate 1000 (JS.Ok Next), fresh_limiters).
Proof.
  intros req.
  assert (Hadmin : Forall (fun '(_, r) =>
                     role_of Demo.secret Demo.verify r = JS.Ok "admin")
                     (Demo.burst 1000 1000 req)).
  { apply Forall_replicate. reflexivity. }
  destruct (admin_never_rate_limited Demo.secret Demo.verify
              fresh_limiters _ Hadmin) as (_ & Hnext & _).
  rewrite Hnext; [reflexivity|].
  apply Forall_replicate. reflexivity.
Defined.

Lemma rejected_credential_treated_as_absent_witness :
  let forged := Demo.get "/api/hotels/search" (Some "Bearer forged-token")
                  "203.0.113.9" in
  let bare := Demo.get "/api/hotels/search" None "203.0.113.9" in
  role_of Demo.secret Demo.verify forged = JS.Ok "anonymous" /\
  admission Demo.secret Demo.verify fresh_limiters 1000 forged
  = admission Demo.secret Demo.verify fresh_limiters 1000 bare.
Proof.
  intros forged bare.
  destruct (rejected_credential_treated_as_absent Demo.secret Demo.verify
              fresh_limiters 1000 forged bare
              "forged-token" "JsonWebTokenError"
              eq_refl eq_refl eq_refl eq_refl eq_refl)
    as (Hrole & _ & _ & Hsame & _).
  split; [exact Hrole | exact Hsame].
Defined.

Lemma verified_credential_without_role_is_user_witness :
  let req := Demo.get "/api/hotels/search" (Some "Bearer plain-token")
               "203.0.113.9" in
  role_of Demo.secret Demo.verify req = JS.Ok "user" /\
  (serve (role_layer Demo.secret Demo.verify) fresh_limiters
     [(1000, req)]).2
  = (with_userStore fresh_limiters
       ({[ Some "203.0.113.9" :=
             {| totalHits := 1; resetTime := 901000 |} ]}, Next)).1.
Proof.
  intros req.
  assert (Hne : "plain-token" <> "") by discriminate.
  destruct (verified_credential_without_role_is_user
              Demo.secret Demo.verify fresh_limiters 1000 req
              "plain-token" "/hotels/search" {| userRole := None |}
              eq_refl Hne eq_refl eq_refl eq_refl eq_refl)
    as (_ & Hrole & _ & Hlayer & _).
  split; [exact Hrole|].
  rewrite (serve_cons_ok _ _ _ _ _ _ _ Hlayer). reflexivity.
Defined.

(** C2, on the code: the role-based limiter is mounted at [/api/], so for
    a request to [/api/health] it reads [req.path] as [/health], and the
    same holds for the other three paths of its bypass test.  None of the
    four is bypassed: the 101st request without a credential that one
    client makes to any of them within a window is answered with status
    429. *)
Theorem bypass_paths_are_counted
    (key : string) (verify : string -> string -> JS.result JwtPayload) :
  map (mount "/api/") bypass_paths
  = [Some "/health"; Some "/status"; Some "/auth/validate-token";
     Some "/auth/google-callback"] /\
  Forall (fun path =>
            (serve (admission key verify) fresh_limiters
               (Demo.burst 101 1000 (Demo.get path None "203.0.113.9"))).1
            !! 100%nat
            = Some (JS.Ok (Respond 429
                "Too many requests from this IP, please try again later. (Anonymous Rate Limit)")))
         bypass_paths.
Proof.
  split; [reflexivity|].
  repeat apply Forall_cons_2; try apply Forall_nil_2;
    vm_compute; reflexivity.
Qed.

Lemma bypass_paths_not_bypassed path :
  path ∈ bypass_paths ->
  exists p, mount "/api/" path = Some p /\ is_bypass_path p = false.
Proof.
  unfold bypass_paths. rewrite !elem_of_cons, elem_of_nil.
  intros [->|[->|[->|[->|[]]]]]; eexists; split; reflexivity.
Qed.

(** The bypass test itself does what it says for the path it is given:
    it is the mount point that keeps the four paths from reaching it.
    Only a path with the prefix doubled gets through. *)
Lemma roleBasedRateLimiter_bypass key verify st now req :
  is_bypass_path (req_path req) = true ->
  roleBasedRateLimiter key verify st now req = JS.Ok (st, Next).
Proof.
  intros Hb. unfold roleBasedRateLimiter. by rewrite bypass_test, Hb.
Qed.

Lemma bypass_reached_with_doubled_prefix :
  mount "/api/" "/api/api/health" = Some "/api/health".
Proof. reflexivity. Qed.


(** A path of the payment-intent shape whose hotel part is [%zz]: the
    layer of the payment limiter fails on every request, the limiter counts
    none, and the role-based limiter counts them all. *)
Remark undecodable_payment_path_never_counted :
  let req := Demo.get "/api/hotels/%zz/bookings/payment-intent"
               Demo.as_user "203.0.113.9" in
  let r := serve (admission Demo.secret Demo.verify) fresh_limiters
             (Demo.burst 60 1000 req) in
  r.1 = replicate 60
          (JS.Ok (Failed 400 "Failed to decode param '%zz'")) /\
  paymentStore r.2 = paymentStore fresh_limiters /\
  userStore r.2 !! Some "203.0.113.9"
  = Some {| totalHits := 60; resetTime := 901000 |}.
Proof. vm_compute. split_and!; reflexivity. Qed.

End ServerFacts.

(* ===================================================================== *)
(** ** Further properties of the activity logger *)
(* ===================================================================== *)

Module ActivityQueriesFacts.
Import Express ActivityLogger ActivityQueries.

Local Open Scope nat_scope.

(** *** Slices *)

Lemma slice_is_drop {A} (xs : list A) (start : JS.number) :
  exists n, JS.slice xs start = drop n xs.
Proof.
  unfold JS.slice. destruct (JS.ToIntegerOrInfinity start) as [| |k].
  - exists (length xs). by rewrite drop_all.
  - exists 0. by rewrite drop_0.
  - destruct (k <? 0)%Z; eauto.
Qed.

Lemma slice_sublist {A} (xs : list A) (start : JS.number) :
  JS.slice xs start `sublist_of` xs.
Proof.
  destruct (slice_is_drop xs start) as [n ->]. apply sublist_drop.
Qed.

Lemma sublist_reverse_2 {A} (xs ys : list A) :
  xs `sublist_of` ys -> reverse xs `sublist_of` reverse ys.
Proof.
  induction 1 as [|x xs ys _ IH|x xs ys _ IH]; [done| |].
  - rewrite !reverse_cons. by apply sublist_app.
  - rewrite reverse_cons. etrans; [exact IH|]. by apply sublist_inserts_r.
Qed.

Lemma reverse_last_n {A} (n : nat) (xs : list A) :
  reverse (last_n n xs) = take n (reverse xs).
Proof.
  unfold last_n. rewrite reverse_drop.
  destruct (Nat.le_gt_cases (length xs) n) as [Hle|Hgt].
  - rewrite !take_ge; [done| |]; rewrite length_reverse; lia.
  - f_equal. lia.
Qed.

(** With a whole limit of at least one, a query is the first [limit]
    records of the selected ones, newest first. *)
Lemma getActivityLogs_take acts u m (z : Z) :
  (0 < z)%Z ->
  getActivityLogs acts u m (Some (JS.of_Z z))
  = take (Z.to_nat z) (reverse (matching u m acts)).
Proof.
  intros Hz. rewrite ActivityLoggerFacts.getActivityLogs_filtered.
  change (default (JS.of_Z 100) (Some (JS.of_Z z))) with (JS.of_Z z).
  rewrite ActivityLoggerFacts.slice_neg_positive by done.
  apply reverse_last_n.
Qed.

(** X1. Whatever the filters and whatever the limit (zero, negative,
    fractional, [NaN], infinite or absent), [getActivityLogs] and
    [getLoginLogs] return records of the array, each at most as often as it
    is there, in the reverse of their order in the array; every record
    [getActivityLogs] returns is selected by the filters.  On an array
    built by the logger from the empty one, no query returns more than
    10,000 records. *)
Theorem queries_return_part_of_the_log
    (acts : list Activity) (ops : list operation)
    (u m : option string) (limit : option JS.number) :
  getActivityLogs acts u m limit `sublist_of` reverse acts /\
  getLoginLogs acts u limit `sublist_of` reverse acts /\
  Forall (selected u m) (getActivityLogs acts u m limit) /\
  Forall is_login (getLoginLogs acts u limit) /\
  length (getActivityLogs (run [] ops) u m limit) <= 10000 /\
  length (getLoginLogs (run [] ops) u limit) <= 10000.
Proof.
  assert (Hall : forall acts',
            getActivityLogs acts' u m limit `sublist_of` reverse acts').
  { intros acts'. rewrite ActivityLoggerFacts.getActivityLogs_filtered.
    apply sublist_reverse_2. etrans; [apply slice_sublist|].
    apply sublist_filter. }
  assert (Hlogin : forall acts',
            getLoginLogs acts' u limit `sublist_of` reverse acts').
  { intros acts'. unfold getLoginLogs.
    apply sublist_reverse_2. etrans; [apply slice_sublist|].
    destruct (JS.truthy u).
    - etrans; apply sublist_filter.
    - apply sublist_filter. }
  assert (Hcap : length (run [] ops) <= 10000).
  { change (run [] ops) with (run (last_n MAX_ACTIVITIES []) ops).
    rewrite ActivityLoggerFacts.run_history,
      ActivityLoggerFacts.length_last_n.
    change 10000 with MAX_ACTIVITIES. lia. }
  split_and!.
  - apply Hall.
  - apply Hlogin.
  - rewrite ActivityLoggerFacts.getActivityLogs_filtered.
    apply Forall_reverse.
    destruct (slice_is_drop (matching u m acts)
                (JS.neg (default (JS.of_Z 100) limit))) as [n ->].
    apply Forall_drop, Forall_forall. intros a Ha.
    by apply list_elem_of_filter in Ha as [? _].
  - unfold getLoginLogs. apply Forall_reverse.
    match goal with
    | |- Forall _ (JS.slice ?l ?s) =>
        destruct (slice_is_drop l s) as [n ->]
    end.
    apply Forall_drop, Forall_forall. intros a Ha.
    destruct (JS.truthy u).
    + apply list_elem_of_filter in Ha as [_ Ha].
      by apply list_elem_of_filter in Ha as [? _].
    + by apply list_elem_of_filter in Ha as [? _].
  - etrans; [apply sublist_length, Hall|]. by rewrite length_reverse.
  - etrans; [apply sublist_length, Hlogin|]. by rewrite length_reverse.
Qed.

(** X2. For whole limits [1 <= small <= large], the answer to the query
    with the smaller limit is the beginning of the answer with the larger
    one: raising the limit only adds older records at the end. *)
Theorem smaller_limit_is_prefix
    (acts : list Activity) (u m : option string) (small large : Z)
    (Hsmall : (0 < small)%Z) (Hlarge : (small <= large)%Z) :
  getActivityLogs acts u m (Some (JS.of_Z small))
  = take (Z.to_nat small)
      (getActivityLogs acts u m (Some (JS.of_Z large))) /\
  getActivityLogs acts u m (Some (JS.of_Z small))
    `prefix_of` getActivityLogs acts u m (Some (JS.of_Z large)).
Proof.
  rewrite !getActivityLogs_take by lia.
  assert (Heq : take (Z.to_nat small) (reverse (matching u m acts))
                = take (Z.to_nat small)
                    (take (Z.to_nat large) (reverse (matching u m acts)))).
  { rewrite take_take. f_equal. lia. }
  split; [exact Heq|].
  rewrite Heq. apply prefix_take.
Qed.

Lemma smaller_limit_is_prefix_witness :
  getActivityLogs Demo.sample_log (Some "u1") None (Some (JS.of_Z 2))
  = take 2 (getActivityLogs Demo.sample_log (Some "u1") None
              (Some (JS.of_Z 3))).
Proof.
  assert (H1 : (0 < 2)%Z) by lia.
  assert (H2 : (2 <= 3)%Z) by lia.
  exact (proj1 (smaller_limit_is_prefix Demo.sample_log (Some "u1") None
                  2 3 H1 H2)).
Defined.

(** *** What was just recorded is found *)

Lemma step_pushes_last (acts : list Activity) (op : operation) (r : Activity) :
  pushed op = [r] -> last (step acts op) = Some r.
Proof.
  intros Hp.
  destruct (ActivityLoggerFacts.step_cases acts op)
    as [[-> _] | [(_ & Hnil & _) | (a & _ & Ha & ->)]].
  - discriminate.
  - congruence.
  - assert (a = r) as -> by congruence.
    apply ActivityLoggerFacts.last_shift_if_over.
Qed.

(** X3. A record that was just pushed, by [logActivity] or by the response
    of an important request, is the first record of every query that
    selects it, for every whole limit of at least one and whatever the
    array held before (also when it was full). *)
Theorem pushed_record_is_first
    (acts : list Activity) (op : operation) (r : Activity)
    (u m : option string) (z : Z)
    (Hpushed : pushed op = [r])
    (Hselected : selected u m r)
    (Hz : (0 < z)%Z) :
  head (getActivityLogs (step acts op) u m (Some (JS.of_Z z))) = Some r.
Proof.
  rewrite getActivityLogs_take by done.
  apply step_pushes_last with (acts := acts) in Hpushed.
  apply last_Some in Hpushed as [older ->].
  unfold matching. rewrite filter_app, filter_cons_True by done.
  rewrite filter_nil, reverse_snoc.
  destruct (Z.to_nat z) as [|n] eqn:Hn; [lia | done].
Qed.

Lemma pushed_record_is_first_witness :
  let entry :=
    {| entry_userId := Some "u9"; entry_timestamp := None;
       entry_method := Some "PATCH"; entry_path := None; entry_ip := None;
       entry_userAgent := None; entry_statusCode := None;
       entry_params := None; entry_query := None; entry_duration := None;
       entry_message := Some "Rejected without reason" |} in
  head (getActivityLogs (logActivity Demo.sample_log entry 7).1
          (Some "u9") (Some "PATCH") (Some (JS.of_Z 5)))
  = Some (entry_activity entry 7).
Proof.
  intros entry.
  assert (Hsel : selected (Some "u9") (Some "PATCH") (entry_activity entry 7))
    by (split; reflexivity).
  assert (Hz : (0 < 5)%Z) by lia.
  exact (pushed_record_is_first Demo.sample_log (Logged entry 7)
           (entry_activity entry 7) (Some "u9") (Some "PATCH") 5
           eq_refl Hsel Hz).
Defined.

(** *** Login logs *)

(** X4. [getLoginLogs] is [getActivityLogs] without a verb filter run on
    the login records alone (path exactly [/api/auth/login], status exactly
    200), for every actor argument and every limit, its default limit being
    50 where [getActivityLogs] has 100; with a whole limit of at least one
    it returns the newest [limit] login records of the actor, newest
    first. *)
Theorem getLoginLogs_is_a_query_on_logins
    (acts : list Activity) (u : option string) (limit : JS.number) (z : Z)
    (Hz : (0 < z)%Z) :
  getLoginLogs acts u (Some limit)
  = getActivityLogs (filter is_login acts) u None (Some limit) /\
  getLoginLogs acts u None
  = getActivityLogs (filter is_login acts) u None (Some (JS.of_Z 50)) /\
  getLoginLogs acts u (Some (JS.of_Z z))
  = take (Z.to_nat z) (reverse (matching u None (filter is_login acts))).
Proof.
  assert (Hgen : forall l,
            getLoginLogs acts u (Some l)
            = getActivityLogs (filter is_login acts) u None (Some l)).
  { intros l. unfold getLoginLogs, getActivityLogs. simpl JS.truthy.
    by destruct (JS.truthy u). }
  split_and!.
  - apply Hgen.
  - apply (Hgen (JS.of_Z 50)).
  - rewrite Hgen. by apply getActivityLogs_take.
Qed.

Lemma getLoginLogs_is_a_query_on_logins_witness :
  let login t :=
    entry_activity
      {| entry_userId := Some "u1"; entry_timestamp := None;
         entry_method := Some "POST";
         entry_path := Some "/api/auth/login"; entry_ip := None;
         entry_userAgent := None; entry_statusCode := Some 200%Z;
         entry_params := None; entry_query := None; entry_duration := None;
         entry_message := None |} t in
  getLoginLogs (Demo.sample_log ++ [login 8%Z; login 9%Z]) (Some "u1")
    (Some (JS.of_Z 1))
  = [login 9%Z].
Proof.
  intros login.
  assert (Hz : (0 < 1)%Z) by lia.
  destruct (getLoginLogs_is_a_query_on_logins
              (Demo.sample_log ++ [login 8%Z; login 9%Z]) (Some "u1")
              JS.NaN 1 Hz) as (_ & _ & ->).
  vm_compute. reflexivity.
Defined.

(** *** Statistics *)

Lemma histogram_partition (acts : list Activity) :
  count_method "GET" acts + count_method "POST" acts
  + count_method "PUT" acts + count_method "PATCH" acts
  + count_method "DELETE" acts + other_verbs acts
  = length acts.
Proof.
  unfold count_method, other_verbs, histogram_verbs.
  induction acts as [|a acts IH]; [done|].
  rewrite !filter_cons. simpl length. rewrite <- IH. clear IH.
  assert (Hin : method a ∈ ["GET"; "POST"; "PUT"; "PATCH"; "DELETE"]
                <-> method a = "GET" \/ method a = "POST" \/
                    method a = "PUT" \/ method a = "PATCH" \/
                    method a = "DELETE").
  { rewrite !elem_of_cons, elem_of_nil. tauto. }
  repeat case_decide; simpl length; try lia;
    exfalso; intuition congruence.
Qed.

Lemma size_list_to_set_le (l : list string) :
  size (list_to_set l : gset string) <= length l.
Proof.
  induction l as [|x l IH]; [done|].
  simpl. rewrite size_union_alt, size_singleton.
  assert (size (list_to_set l ∖ {[x]} : gset string)
          <= size (list_to_set l : gset string))
    by (apply subseteq_size, subseteq_difference_l; reflexivity).
  lia.
Qed.

Lemma actors_length (acts : list Activity) : length (actors acts) <= length acts.
Proof.
  unfold actors. induction acts as [|a acts IH]; [done|].
  cbn [omap list_omap]. fold (actors acts) in *.
  destruct (if JS.truthy (userId a) then userId a else None);
    simpl length; unfold actors in *; lia.
Qed.

(** X5. In the statistics, the number of distinct actors is at most the
    number of records, and the five verb counts together fall short of
    [totalActivities] by exactly the number of records whose verb is none
    of GET, POST, PUT, PATCH and DELETE (such as the "SYSTEM" default of
    [logActivity]); [lastActivity] is the timestamp of the last record and
    is [null] exactly for the empty array, for which every count is zero. *)
Theorem stats_account_for_every_record (acts : list Activity) :
  let s := getActivityStats acts in
  let v := activitiesByMethod s in
  totalUsers s <= totalActivities s /\
  GET v + POST v + PUT v + PATCH v + DELETE v + other_verbs acts
  = totalActivities s /\
  GET v + POST v + PUT v + PATCH v + DELETE v <= totalActivities s /\
  lastActivity s = timestamp <$> last acts /\
  (lastActivity s = None <-> acts = []) /\
  (totalActivities s = 0 <-> acts = []) /\
  getActivityStats (clearActivityLogs acts)
  = {| totalActivities := 0; totalUsers := 0;
       activitiesByMethod :=
         {| GET := 0; POST := 0; PUT := 0; PATCH := 0; DELETE := 0 |};
       lastActivity := None |}.
Proof.
  intros s v. pose proof (histogram_partition acts) as Hpart.
  split_and!.
  - simpl. etrans; [apply size_list_to_set_le | apply actors_length].
  - exact Hpart.
  - simpl. simpl in Hpart. lia.
  - done.
  - simpl. rewrite fmap_None. rewrite last_None. done.
  - simpl. apply length_zero_iff_nil.
  - done.
Qed.

Lemma count_method_snoc m acts r :
  count_method m (acts ++ [r])
  = count_method m acts + (if decide (method r = m) then 1 else 0).
Proof.
  unfold count_method. rewrite filter_app, length_app, filter_cons, filter_nil.
  by case_decide.
Qed.

Lemma logActivity_with_room acts entry now :
  length acts < MAX_ACTIVITIES ->
  (logActivity acts entry now).1 = acts ++ [entry_activity entry now].
Proof.
  intros Hroom. unfold logActivity. cbn [fst].
  unfold shift_if_over, JS.push. rewrite length_app. simpl length.
  by destruct (Nat.ltb_spec MAX_ACTIVITIES (length acts + 1)); [lia|].
Qed.

(** X6. While the array has room, [logActivity] with an entry that names
    neither a verb nor an actor (the empty entry, for one) raises
    [totalActivities] by one and makes its timestamp the [lastActivity],
    but leaves the five verb counts and the number of distinct actors as
    they were: the record counts under the verb "SYSTEM", which the
    histogram does not have. *)
Theorem system_entry_outside_histogram
    (acts : list Activity) (entry : PartialActivity) (now : Z)
    (Hroom : length acts < MAX_ACTIVITIES)
    (Hverb : JS.truthy (entry_method entry) = false)
    (Hactor : JS.truthy (entry_userId entry) = false) :
  let before := getActivityStats acts in
  let after := getActivityStats (logActivity acts entry now).1 in
  totalActivities after = S (totalActivities before) /\
  activitiesByMethod after = activitiesByMethod before /\
  totalUsers after = totalUsers before /\
  lastActivity after = Some (default now (entry_timestamp entry)) /\
  method (entry_activity entry now) = "SYSTEM".
Proof.
  intros before after. subst before after.
  rewrite logActivity_with_room by done.
  assert (Hm : method (entry_activity entry now) = "SYSTEM").
  { unfold entry_activity. cbn [method].
    unfold JS.or_default, JS.truthy in *.
    destruct (entry_method entry) as [v|]; [|reflexivity].
    by destruct (String.eqb v ""). }
  split_and!.
  - simpl. rewrite length_app. simpl. lia.
  - simpl. rewrite !count_method_snoc, Hm.
    repeat case_decide; try discriminate. by rewrite !Nat.add_0_r.
  - simpl. unfold actors. rewrite omap_app. simpl.
    rewrite Hactor. by rewrite app_nil_r.
  - simpl. by rewrite last_snoc.
  - exact Hm.
Qed.

Lemma system_entry_outside_histogram_witness :
  activitiesByMethod
    (getActivityStats (logActivity Demo.sample_log empty_entry 7).1)
  = {| GET := 0; POST := 1; PUT := 1; PATCH := 0; DELETE := 4 |} /\
  totalActivities
    (getActivityStats (logActivity Demo.sample_log empty_entry 7).1) = 7.
Proof.
  assert (Hroom : length Demo.sample_log < MAX_ACTIVITIES).
  { apply Nat.ltb_lt. vm_compute. reflexivity. }
  destruct (system_entry_outside_histogram Demo.sample_log empty_entry 7
              Hroom eq_refl eq_refl) as (Htotal & Hverbs & _).
  split; [rewrite Hverbs | rewrite Htotal]; vm_compute; reflexivity.
Defined.

(** *** The limit of the route *)

(** X7. For a requested limit of at least one (a number [>= 1], whole or
    not, or [Infinity]), the handler of [GET /activity-logs] returns the
    newest records selected by the filters, newest first, in number at most
    the requested limit rounded down and at most 1000; when the requested
    value is [NaN] or zero it returns at most 100. *)
Theorem route_caps_the_answer
    (acts : list Activity) (u m : option string) (requested : JS.number)
    (Hrequested : at_least_one requested) :
  let n := match requested with
           | JS.Num q => Z.to_nat (Qfloor q `min` 1000)
           | _ => 1000
           end in
  1 <= n <= 1000 /\
  activity_logs_route acts u m requested
  = take n (reverse (matching u m acts)) /\
  length (activity_logs_route acts u m requested) <= 1000 /\
  activity_logs_route acts u m JS.NaN
  = take 100 (reverse (matching u m acts)) /\
  activity_logs_route acts u m (JS.of_Z 0)
  = take 100 (reverse (matching u m acts)).
Proof.
  intros n.
  assert (Hwhole : forall z, (0 < z)%Z ->
            getActivityLogs acts u m (Some (JS.of_Z z))
            = take (Z.to_nat z) (reverse (matching u m acts)))
    by (intros; by apply getActivityLogs_take).
  assert (Hn : 1 <= n <= 1000 /\
               activity_logs_route acts u m requested
               = take n (reverse (matching u m acts))).
  { unfold activity_logs_route. subst n.
    destruct requested as [| | |q]; try done.
    - split; [lia|]. apply (Hwhole 1000%Z). lia.
    - simpl in Hrequested.
      assert (H1 : (1 <= Qfloor q)%Z).
      { change 1%Z with (Qfloor (inject_Z 1)). by apply Qfloor_resp_le. }
      split; [lia|].
      rewrite ActivityLoggerFacts.route_limit_cases.
      assert (Htruthy : JS.number_truthy (JS.Num q) = true).
      { simpl. destruct (Qeq_bool q 0) eqn:Hq0; [|done].
        apply Qeq_bool_eq in Hq0. rewrite Hq0 in Hrequested.
        by apply Qle_bool_iff in Hrequested. }
      rewrite Htruthy. unfold JS.Math_min, JS.of_Z.
      destruct (Qle_bool q (inject_Z 1000)) eqn:Hle.
      + apply Qle_bool_iff in Hle. apply Qfloor_resp_le in Hle.
        rewrite Qfloor_Z in Hle.
        rewrite ActivityLoggerFacts.getActivityLogs_filtered.
        change (default _ (Some (JS.Num q))) with (JS.Num q).
        rewrite ActivityLoggerFacts.slice_neg_at_least_one by done.
        rewrite reverse_last_n. f_equal. lia.
      + assert (Hgt : (inject_Z 1000 < q)%Q).
        { apply Qnot_le_lt. intros H. apply Qle_bool_iff in H. congruence. }
        apply Qlt_le_weak, Qfloor_resp_le in Hgt. rewrite Qfloor_Z in Hgt.
        change (JS.Num (inject_Z 1000)) with (JS.of_Z 1000).
        rewrite (Hwhole 1000%Z) by lia. f_equal. lia. }
  destruct Hn as [Hn Heq].
  split_and!; try lia; try done.
  - rewrite Heq, length_take. lia.
  - apply (Hwhole 100%Z). lia.
  - apply (Hwhole 100%Z). lia.
Qed.

Lemma route_caps_the_answer_witness :
  activity_logs_route Demo.sample_log None None (JS.Num (5 # 2))
  = [Demo.did "u2" "PUT" 6; Demo.did "u1" "DELETE" 5] /\
  length (activity_logs_route Demo.sample_log None None JS.PosInfinity) = 6.
Proof.
  assert (H1 : at_least_one (JS.Num (5 # 2))) by discriminate.
  assert (H2 : at_least_one JS.PosInfinity) by exact I.
  destruct (route_caps_the_answer Demo.sample_log None None _ H1)
    as (_ & -> & _).
  destruct (route_caps_the_answer Demo.sample_log None None _ H2)
    as (_ & -> & _).
  split; vm_compute; reflexivity.
Defined.

(** *** Which operations are recorded *)

Lemma prefix_spec (p s : string) :
  String.prefix p s = true <-> exists post, s = p +:+ post.
Proof.
  revert s. induction p as [|a p IH]; intros s.
  - split; [intros _; by exists s | by destruct s].
  - destruct s as [|b s]; simpl.
    + split; [done | by intros [post ?]].
    + destruct (ascii_dec a b) as [->|Hne].
      * rewrite IH. split; intros [post Hpost]; exists post.
        -- by rewrite Hpost.
        -- by injection Hpost.
      * split; [done | intros [post Hpost]]. by injection Hpost.
Qed.

Lemma includes_spec (s sub : string) :
  JS.includes s sub = true <-> occurs_in sub s.
Proof.
  unfold occurs_in. induction s as [|c s IH]; cbn [JS.includes].
  - rewrite orb_false_r, prefix_spec. split.
    + intros [post ->]. by exists "", post.
    + intros (pre & post & H). destruct pre; [eauto | done].
  - rewrite orb_true_iff, prefix_spec, IH. split.
    + intros [[post ->] | (pre & post & ->)].
      * by exists "", post.
      * by exists (String c pre), post.
    + intros (pre & post & H). destruct pre as [|d pre].
      * left. eauto.
      * right. simpl in H. injection H as _ ->. eauto.
Qed.

Lemma array_includes_spec (xs : list string) (x : string) :
  JS.array_includes xs x = true <-> x ∈ xs.
Proof.
  unfold JS.array_includes. rewrite existsb_exists, list_elem_of_In.
  split.
  - intros (y & Hy & Heq). by apply String.eqb_eq in Heq as ->.
  - intros Hx. exists x. by rewrite String.eqb_refl.
Qed.

(** X8. A response is recorded exactly when the verb of its request is,
    letter for letter, one of POST, PUT, PATCH and DELETE, or the path read
    at the time of sending contains [/api/admin] or [/api/auth] somewhere,
    not necessarily at its start. *)
Theorem isImportantOperation_spec (verb path' : string) :
  isImportantOperation verb path' = true
  <-> verb ∈ ["POST"; "PUT"; "PATCH"; "DELETE"] \/
      occurs_in "/api/admin" path' \/ occurs_in "/api/auth" path'.
Proof.
  unfold isImportantOperation.
  rewrite <- array_includes_spec, <- !includes_spec.
  destruct (JS.array_includes _ verb), (JS.includes path' "/api/admin"),
    (JS.includes path' "/api/auth"); intuition congruence.
Qed.

(** *** Responses sent from inside a mounted router *)

Lemma match_tokens_same (c d : ascii) (ts : list token) (s : string) :
  same_letter d c = true ->
  match_tokens (Lit c :: ts) (String d s) = match_tokens ts s.
Proof. intros H. simpl. by rewrite H. Qed.

Lemma startsWith_slash (r : string) : JS.startsWith (String "/" r) "/" = true.
Proof. by destruct r. Qed.

(** What the admin router sees of a path under [/api/admin]. *)
Lemma mount_under_admin (rest : string) :
  JS.startsWith rest "/" = true ->
  exists p,
    mount "/api/admin" ("/api/admin" +:+ rest) = Some p /\
    (p = rest \/ rest = String "/" p \/ p = "/").
Proof.
  unfold JS.startsWith. rewrite prefix_spec. intros [r ->].
  unfold mount, layer_match.
  let ts := eval vm_compute in (tokens (drop_trailing_slash "/api/admin"))
  in change (tokens _) with ts.
  change ("/api/admin" +:+ "/" +:+ r)
    with (String "/" (String "a" (String "p" (String "i" (String "/"
          (String "a" (String "d" (String "m" (String "i" (String "n"
          (String "/" r))))))))))).
  rewrite !match_tokens_same by reflexivity.
  cbn [match_tokens match_end].
  destruct r as [|d r'].
  - exists "/". split; [reflexivity | auto].
  - cbn [at_boundary]. change (Ascii.eqb "/" "/") with true. cbn [andb].
    destruct (Ascii.eqb_spec d "/") as [->|Hd];
      cbn [fmap option_fmap option_map decode_params].
    + exists (String "/" r'). rewrite startsWith_slash. auto.
    + exists (String "/" (String d r')). rewrite startsWith_slash. auto.
Qed.

Lemma includes_tail (c : ascii) (s sub : string) :
  JS.includes s sub = true -> JS.includes (String c s) sub = true.
Proof. intros H. cbn [JS.includes]. rewrite H. apply orb_true_r. Qed.

(** X9. The response to a request under [/api/admin] is sent by a handler
    of the router mounted there, so [activityLogger] reads the path without
    [/api/admin].  When the verb is none of POST, PUT, PATCH and DELETE and
    the rest of the path does not itself contain [/api/admin] or
    [/api/auth], nothing is recorded, although the full path of the request
    would make the operation an important one. *)
Theorem admin_reads_are_not_recorded
    (acts : list Activity) (req : Request) (rest : string)
    (status startTime now : Z)
    (Hpath : req_path req = "/api/admin" +:+ rest)
    (Hrest : JS.startsWith rest "/" = true)
    (Hverb : req_method req ∉ ["POST"; "PUT"; "PATCH"; "DELETE"])
    (Hadmin : JS.includes rest "/api/admin" = false)
    (Hauth : JS.includes rest "/api/auth" = false) :
  sent_under "/api/admin" acts req status startTime now = acts /\
  isImportantOperation (req_method req) (req_path req) = true /\
  activityLogger acts req status startTime now
  = shift_if_over MAX_ACTIVITIES
      (acts ++ [request_activity req status startTime now]).
Proof.
  assert (Hfull : isImportantOperation (req_method req) (req_path req)
                  = true).
  { apply isImportantOperation_spec. right. left.
    rewrite Hpath. by exists "", rest. }
  split_and!; [|exact Hfull|].
  - unfold sent_under. rewrite Hpath.
    destruct (mount_under_admin rest Hrest) as (p & -> & Hp).
    unfold activityLogger. cbn [req_method req_path with_path].
    assert (Hclean : JS.includes p "/api/admin" = false /\
                     JS.includes p "/api/auth" = false).
    { destruct Hp as [->|[->| ->]]; [done| |done].
      split.
      - destruct (JS.includes p "/api/admin") eqn:E; [|done].
        by rewrite (includes_tail _ _ _ E) in Hadmin.
      - destruct (JS.includes p "/api/auth") eqn:E; [|done].
        by rewrite (includes_tail _ _ _ E) in Hauth. }
    destruct Hclean as [Hc1 Hc2].
    unfold isImportantOperation. rewrite Hc1, Hc2.
    destruct (JS.array_includes _ (req_method req)) eqn:Hv; [|done].
    by apply array_includes_spec in Hv.
  - unfold activityLogger. by rewrite Hfull.
Qed.

Lemma admin_reads_are_not_recorded_witness :
  sent_under "/api/admin" Demo.sample_log
    (Demo.get "/api/admin/dashboard" Demo.as_admin "203.0.113.9") 200 1 2
  = Demo.sample_log.
Proof.
  assert (Hverb : "GET" ∉ ["POST"; "PUT"; "PATCH"; "DELETE"]).
  { rewrite <- array_includes_spec. discriminate. }
  exact (proj1 (admin_reads_are_not_recorded Demo.sample_log
                  (Demo.get "/api/admin/dashboard" Demo.as_admin
                     "203.0.113.9")
                  "/dashboard" 200 1 2 eq_refl eq_refl Hverb
                  eq_refl eq_refl)).
Defined.

Lemma filter_drop_sublist {A} (P : A -> Prop) `{!forall x, Decision (P x)}
    (n : nat) (xs : list A) :
  filter P (drop n xs) `sublist_of` filter P xs.
Proof.
  rewrite <- (take_drop n xs) at 2. rewrite filter_app.
  apply sublist_inserts_l. reflexivity.
Qed.

(** X10. The response to [/api/auth/login] is sent by a handler of the
    router mounted at [/api/auth], so the record that [activityLogger]
    makes of it has the path [/login]: it is no login record for
    [getLoginLogs], whatever the verb and the status.  The login records in
    the array afterwards are among those that were there before, and from
    an array without login records [getLoginLogs] keeps returning nothing. *)
Theorem login_responses_are_not_login_records
    (acts : list Activity) (req : Request) (status startTime now : Z)
    (u : option string) (limit : option JS.number)
    (Hpath : req_path req = "/api/auth/login") :
  let after := sent_under "/api/auth" acts req status startTime now in
  path (request_activity (with_path req "/login") status startTime now)
  = "/login" /\
  after = activityLogger acts (with_path req "/login") status startTime now /\
  filter is_login after `sublist_of` filter is_login acts /\
  (filter is_login acts = [] -> getLoginLogs after u limit = []).
Proof.
  intros after.
  assert (Hafter : after = activityLogger acts (with_path req "/login")
                             status startTime now).
  { subst after. unfold sent_under. by rewrite Hpath. }
  assert (Hsub : filter is_login after `sublist_of` filter is_login acts).
  { rewrite Hafter. unfold activityLogger.
    destruct (isImportantOperation _ _); [|reflexivity].
    rewrite ActivityLoggerFacts.shift_if_over_drop. unfold JS.push.
    set (r := request_activity _ _ _ _).
    assert (Hr : filter is_login (acts ++ [r]) = filter is_login acts).
    { rewrite filter_app, filter_cons_False, filter_nil, app_nil_r; [done|].
      intros [Hp _]. discriminate Hp. }
    destruct (_ <? _).
    - rewrite <- Hr. apply filter_drop_sublist.
    - by rewrite Hr. }
  split_and!; [done | exact Hafter | exact Hsub |].
  intros Hnone. rewrite Hnone in Hsub. apply sublist_nil_r in Hsub.
  unfold getLoginLogs. rewrite Hsub. rewrite filter_nil.
  assert (Hslice : forall n, JS.slice (@nil Activity) n = []).
  { intros n. destruct (slice_is_drop (@nil Activity) n) as [k ->].
    by destruct k. }
  destruct (JS.truthy u); by rewrite Hslice.
Qed.

Lemma login_responses_are_not_login_records_witness :
  let req :=
    {| req_method := "POST"; req_path := "/api/auth/login";
       req_authorization := None; req_cookies := Some ∅;
       req_ip := Some "203.0.113.9"; req_remoteAddress := None;
       req_userAgent := None; req_userId := None;
       req_params := []; req_query := []; req_body := None |} in
  length (sent_under "/api/auth" [] req 200 1 2) = 1 /\
  getLoginLogs (sent_under "/api/auth" [] req 200 1 2) None None = [].
Proof.
  intros req.
  destruct (login_responses_are_not_login_records [] req 200 1 2 None None
              eq_refl) as (_ & _ & _ & Hnone).
  split; [vm_compute; reflexivity | by apply Hnone].
Defined.

End ActivityQueriesFacts.

(* ===================================================================== *)
(** ** Properties of the guards and of the activity-log routes *)
(* ===================================================================== *)

Module AuthFacts.
Import Express Auth.

Section WithJwt.
Variable JWT_SECRET_KEY : string.
Variable jwt_verify : string -> string -> JS.result Payload.

Abbreviation verifyToken := (verifyToken JWT_SECRET_KEY jwt_verify).
Abbreviation admin_only := (admin_only JWT_SECRET_KEY jwt_verify).
Abbreviation delete_activity_logs :=
  (delete_activity_logs JWT_SECRET_KEY jwt_verify).
Abbreviation get_activity_stats :=
  (get_activity_stats JWT_SECRET_KEY jwt_verify).
Abbreviation get_activity_logs :=
  (get_activity_logs JWT_SECRET_KEY jwt_verify).
Abbreviation role_payload := (role_payload jwt_verify).

Lemma verifyRole_granted allowed who who' :
  verifyRole allowed who = Granted who' <->
  who' = who /\ exists role, id_userRole who = Some role /\
                             role <> "" /\ role ∈ allowed.
Proof.
  unfold verifyRole. destruct (id_userRole who) as [role|].
  - destruct (String.eqb_spec role "") as [->|Hne]; simpl.
    + split; [done | intros (_ & r & [= <-] & ? & _); done].
    + destruct (JS.array_includes allowed role) eqn:Hin; simpl.
      * apply ActivityQueriesFacts.array_includes_spec in Hin.
        split; [intros [= <-]; eauto | by intros [-> _]].
      * split; [done|]. intros (_ & r & [= <-] & _ & Hr).
        apply ActivityQueriesFacts.array_includes_spec in Hr. congruence.
  - split; [done | by intros (_ & r & ? & _)].
Qed.

(** X11. The guards of the activity-log routes let a request through
    exactly when its token (from a [Bearer] header, else from the session
    cookie) is non-empty, is accepted by [jwt.verify] and carries the role
    "admin"; a token that verifies without a role is refused, although the
    rate limiter would count its bearer as a "user".  Every other request
    is answered 401 "unauthorized" or 403 "Access denied", unless reading
    the cookie throws because no cookies were parsed. *)
Theorem admin_only_grants_exactly_admins (req : Request) (who : Identity) :
  (admin_only req = JS.Ok (Granted who) <->
   exists token payload,
     Auth.read_token req = JS.Ok (Some token) /\
     token <> "" /\
     jwt_verify token JWT_SECRET_KEY = JS.Ok payload /\
     payload_userRole payload = Some "admin" /\
     who = {| id_userId := payload_userId payload;
              id_userRole := Some "admin" |}) /\
  (forall g, admin_only req = JS.Ok g ->
     (exists who', g = Granted who') \/
     g = Denied 401 "unauthorized" \/ g = Denied 403 "Access denied") /\
  (forall e, admin_only req = JS.Throw e ->
     req_cookies req = None /\ Auth.read_token req = JS.Throw e).
Proof.
  unfold Auth.admin_only, Auth.verifyToken.
  destruct (Auth.read_token req) as [[token|]|e] eqn:Hread; cbn [JS.bind].
  - destruct (String.eqb_spec token "") as [->|Hne]; cbn [JS.bind].
    + split_and!; [split; [done|] | intros g [= <-]; auto | done].
      intros (t & p & [= <-] & ? & _). done.
    + destruct (jwt_verify token JWT_SECRET_KEY) as [payload|e]
        eqn:Hv; cbn [JS.try_catch JS.bind].
      * split_and!.
        -- split.
           ++ intros [= Hg]. apply verifyRole_granted in Hg
                as (-> & role & Hrole & _ & Hin).
              simpl in Hrole. apply list_elem_of_singleton in Hin as ->.
              exists token, payload. rewrite Hrole. auto.
           ++ intros (t & p & [= <-] & _ & Hp & Hrole & ->).
              assert (p = payload) as -> by congruence.
              f_equal. apply verifyRole_granted. split.
              ** by rewrite Hrole.
              ** exists "admin". simpl. rewrite Hrole.
                 split_and!; [done | done | by apply list_elem_of_singleton].
        -- intros g [= <-]. unfold verifyRole. repeat case_match; eauto.
        -- done.
      * split_and!; [split; [done|] | intros g [= <-]; auto | done].
        intros (t & p & [= <-] & _ & Hp & _). congruence.
  - split_and!; [split; [done|] | intros g [= <-]; auto | done].
    intros (t & p & ? & _). done.
  - split_and!; [split; [done|] | done |].
    + intros (t & p & ? & _). done.
    + intros e' [= <-]. split; [|done].
      unfold Auth.read_token in Hread. repeat case_match; congruence.
Qed.

Lemma verifyToken_denied req status message :
  verifyToken req = JS.Ok (Denied status message) ->
  status = 401 /\ message = "unauthorized".
Proof.
  unfold Auth.verifyToken.
  destruct (Auth.read_token req) as [[token|]|e]; cbn [JS.bind];
    [| by intros [= <- <-] | done].
  destruct (String.eqb token ""); [by intros [= <- <-]|].
  destruct (jwt_verify token JWT_SECRET_KEY); cbn; [done|].
  by intros [= <- <-].
Qed.

Lemma verifyRole_denied allowed who status message :
  verifyRole allowed who = Denied status message ->
  status = 403 /\ message = "Access denied".
Proof.
  unfold verifyRole. destruct (id_userRole who) as [role|];
    [|by intros [= <- <-]].
  destruct (_ || _); [by intros [= <- <-] | done].
Qed.

(** What the replaced [res.send] does with the answer to a [DELETE]
    request for [/api/admin/activity-logs]: it records it, under the path
    that the router sees. *)
Lemma delete_answer_recorded acts req status startTime now :
  req_method req = "DELETE" ->
  req_path req = "/api/admin/activity-logs" ->
  ActivityQueries.sent_under "/api/admin" acts req status startTime now
  = ActivityLogger.shift_if_over ActivityLogger.MAX_ACTIVITIES
      (acts ++ [ActivityLogger.request_activity
                  (with_path req "/activity-logs") status startTime now]).
Proof.
  intros Hmethod Hpath. unfold ActivityQueries.sent_under. rewrite Hpath.
  change (mount "/api/admin" "/api/admin/activity-logs")
    with (Some "/activity-logs").
  unfold ActivityLogger.activityLogger.
  cbn [req_method req_path with_path]. by rewrite Hmethod.
Qed.

(** X12. [DELETE /api/admin/activity-logs] empties the array only for a
    request that passes both guards, and the answer to every such request
    is itself recorded by the replaced [res.send], under the path
    [/activity-logs] that the router sees.  After a granted request the
    array holds exactly one record, that of the request itself with status
    200 and the actor of the token.  A request answered 401 or 403 clears
    nothing: its own record is pushed at the end, which costs the oldest
    record when the array was full, and nothing otherwise. *)
Theorem only_admins_clear_the_log
    (acts acts' : list ActivityLogger.Activity) (req : Request)
    (startTime now : Z) (ans : answer string)
    (Hmethod : req_method req = "DELETE")
    (Hpath : req_path req = "/api/admin/activity-logs")
    (Hrun : delete_activity_logs acts req startTime now
            = JS.Ok (acts', ans)) :
  (exists who,
     admin_only req = JS.Ok (Granted who) /\
     id_userRole who = Some "admin" /\
     ans = Success "Activity logs cleared successfully" /\
     acts' = [ActivityLogger.request_activity
                (with_path (with_identity req who) "/activity-logs")
                200 startTime now]) \/
  (exists status message r,
     ans = Refused status message /\
     (status = 401 /\ message = "unauthorized" \/
      status = 403 /\ message = "Access denied") /\
     (forall who, admin_only req <> JS.Ok (Granted who)) /\
     ActivityLogger.statusCode r = Some status /\
     ActivityLogger.method r = "DELETE" /\
     ActivityLogger.path r = "/activity-logs" /\
     acts' = ActivityLogger.shift_if_over ActivityLogger.MAX_ACTIVITIES
               (acts ++ [r]) /\
     acts' = (if (ActivityLogger.MAX_ACTIVITIES <=? length acts)%nat
              then drop 1 acts ++ [r] else acts ++ [r])).
Proof.
  assert (Hshift : forall r,
    ActivityLogger.shift_if_over ActivityLogger.MAX_ACTIVITIES (acts ++ [r])
    = if (ActivityLogger.MAX_ACTIVITIES <=? length acts)%nat
      then drop 1 acts ++ [r] else acts ++ [r]).
  { intros r. rewrite ActivityLoggerFacts.shift_if_over_drop.
    rewrite length_app. cbn [length].
    pose proof ActivityLoggerFacts.MAX_ACTIVITIES_pos as Hpos.
    destruct (Nat.ltb_spec ActivityLogger.MAX_ACTIVITIES (length acts + 1)),
      (Nat.leb_spec ActivityLogger.MAX_ACTIVITIES (length acts));
      try lia; [|done].
    destruct acts as [|a acts0]; [cbn [length] in *; lia|].
    cbn [drop app]. by rewrite !drop_0. }
  unfold Auth.delete_activity_logs in Hrun.
  unfold Auth.admin_only.
  destruct (verifyToken req) as [[status message|who]|e] eqn:Hg;
    cbn [JS.bind] in Hrun |- *; [| |done].
  - injection Hrun as <- <-. right.
    destruct (verifyToken_denied _ _ _ Hg) as [-> ->].
    exists 401%Z, "unauthorized",
      (ActivityLogger.request_activity (with_path req "/activity-logs")
         401 startTime now).
    split_and!; try reflexivity.
    + by left.
    + intros who. discriminate.
    + exact Hmethod.
    + by apply delete_answer_recorded.
    + rewrite <- Hshift. by apply delete_answer_recorded.
  - cbv zeta in Hrun.
    destruct (verifyRole ["admin"] who) as [status message|who'] eqn:Hr.
    + injection Hrun as <- <-. right.
      destruct (verifyRole_denied _ _ _ _ Hr) as [-> ->].
      exists 403%Z, "Access denied",
        (ActivityLogger.request_activity
           (with_path (with_identity req who) "/activity-logs")
           403 startTime now).
      split_and!; try reflexivity.
      * by right.
      * intros who0. discriminate.
      * exact Hmethod.
      * by apply delete_answer_recorded.
      * rewrite <- Hshift. by apply delete_answer_recorded.
    + injection Hrun as <- <-. left.
      apply verifyRole_granted in Hr as (-> & role & Hrole & _ & Hin).
      apply list_elem_of_singleton in Hin as ->.
      exists who. split_and!; try done.
      rewrite delete_answer_recorded by done.
      unfold ActivityLogger.clearActivityLogs. cbn [app].
      rewrite ActivityLoggerFacts.shift_if_over_drop. cbn [length].
      pose proof ActivityLoggerFacts.MAX_ACTIVITIES_pos as Hpos.
      by destruct (Nat.ltb_spec ActivityLogger.MAX_ACTIVITIES 1); [lia|].
Qed.

End WithJwt.

Lemma only_admins_clear_the_log_witness :
  let verify token key :=
    if String.eqb token "root" then
      JS.Ok {| payload_userId := Some "u0";
               payload_userRole := Some "admin" |}
    else if String.eqb token "guest" then
      JS.Ok {| payload_userId := Some "u1";
               payload_userRole := Some "user" |}
    else JS.Throw "JsonWebTokenError" in
  let req token :=
    Demo.delete "/api/admin/activity-logs" (Some token) "203.0.113.9" in
  (exists r,
     delete_activity_logs "k" verify Demo.sample_log (req "Bearer guest")
       1000 1004
     = JS.Ok (Demo.sample_log ++ [r], Refused 403 "Access denied") /\
     ActivityLogger.userId r = Some "u1" /\
     ActivityLogger.path r = "/activity-logs" /\
     ActivityLogger.statusCode r = Some 403) /\
  (exists r,
     delete_activity_logs "k" verify Demo.sample_log (req "Bearer root")
       1000 1004
     = JS.Ok ([r], Success "Activity logs cleared successfully") /\
     ActivityLogger.userId r = Some "u0" /\
     ActivityLogger.statusCode r = Some 200).
Proof.
  intros verify req.
  destruct (delete_activity_logs "k" verify Demo.sample_log
              (req "Bearer guest") 1000 1004) as [[acts1 ans1]|e1] eqn:H1;
    [|by vm_compute in H1].
  destruct (delete_activity_logs "k" verify Demo.sample_log
              (req "Bearer root") 1000 1004) as [[acts2 ans2]|e2] eqn:H2;
    [|by vm_compute in H2].
  destruct (only_admins_clear_the_log "k" verify _ _ (req "Bearer guest")
              _ _ _ eq_refl eq_refl H1)
    as [(who & _ & _ & -> & _)|(s1 & m1 & r1 & -> & _)];
    [by vm_compute in H1|].
  destruct (only_admins_clear_the_log "k" verify _ _ (req "Bearer root")
              _ _ _ eq_refl eq_refl H2)
    as [(who & _ & _ & -> & _)|(s2 & m2 & r2 & -> & _)];
    [|by vm_compute in H2].
  vm_compute in H1, H2.
  injection H1 as <- <- <-. injection H2 as <-.
  split; eexists; split_and!; reflexivity.
Defined.

End AuthFacts.

(* ===================================================================== *)
(** ** The rate limiters and the guards on the same request *)
(* ===================================================================== *)

Module AdmissionVsGuards.
Import Express Server Auth.

Lemma substring_whole (s : string) :
  String.substring 0 (String.length s) s = s.
Proof. induction s as [|c s IH]; [done|]. simpl. by rewrite IH. Qed.

Lemma substring_from_app (p s : string) :
  JS.substring_from (String.length p) (p +:+ s) = s.
Proof.
  unfold JS.substring_from. induction p as [|c p IH].
  - change ("" +:+ s) with s. change (String.length "") with 0%nat.
    rewrite Nat.sub_0_r. apply substring_whole.
  - exact IH.
Qed.

Lemma substring_from_bearer (token : string) :
  JS.substring_from 7 ("Bearer " +:+ token) = token.
Proof. apply (substring_from_app "Bearer "). Qed.

Lemma startsWith_bearer (token : string) :
  JS.startsWith ("Bearer " +:+ token) "Bearer " = true.
Proof.
  unfold JS.startsWith. apply ActivityQueriesFacts.prefix_spec. eauto.
Qed.

Section WithJwt.
Variable JWT_SECRET_KEY : string.
Variable jwt_verify : string -> string -> JS.result Payload.

Abbreviation admin_only := (Auth.admin_only JWT_SECRET_KEY jwt_verify).
Abbreviation limiter_verify := (Auth.role_payload jwt_verify).
Abbreviation role_of := (Server.role_of JWT_SECRET_KEY limiter_verify).
Abbreviation role_layer := (Server.role_layer JWT_SECRET_KEY limiter_verify).
Abbreviation admission := (Server.admission JWT_SECRET_KEY limiter_verify).

(** X13. A request that carries its token in a [Bearer] header and that
    the guards of the admin routes let through is never rate limited: both
    limiter layers pass it on and count nothing, in every state and at
    every time.  (The token itself must not begin with "Bearer ", which the
    limiter would strip once more.  Passing on is [next()], except for a
    path of the payment-intent pattern whose hotel part cannot be decoded,
    on which the payment layer fails with status 400.) *)
Theorem granted_bearer_is_never_limited
    (st : Limiters) (now : Z) (req : Request) (token : string)
    (jar : gmap string string) (who : Identity)
    (Hheader : req_authorization req = Some ("Bearer " +:+ token))
    (Hplain : JS.startsWith token "Bearer " = false)
    (Hgranted : admin_only (cookieParser jar req) = JS.Ok (Granted who)) :
  role_of req = JS.Ok "admin" /\
  admission st now req = JS.Ok (st, handed_on req) /\
  (handed_on req = Next \/
   exists message, handed_on req = Failed 400 message) /\
  (layer_error "/api/hotels/*/bookings/payment-intent" (req_path req)
   = None ->
   admission st now req = JS.Ok (st, Next)).
Proof.
  apply (AuthFacts.admin_only_grants_exactly_admins
           JWT_SECRET_KEY jwt_verify) in Hgranted
    as (t & payload & Hread & Hne & Hv & Hrole & _).
  assert (Ht : t = token).
  { unfold read_token in Hread. cbn [cookieParser req_authorization] in Hread.
    rewrite Hheader, startsWith_bearer in Hread.
    change (String.eqb ("Bearer " +:+ token) "") with false in Hread.
    cbn [negb andb fmap option_fmap option_map] in Hread.
    rewrite substring_from_bearer in Hread. congruence. }
  subst t.
  assert (Hadmin : role_of req = JS.Ok "admin").
  { unfold Server.role_of, extract_token. rewrite Hheader.
    rewrite startsWith_bearer. simpl fmap.
    rewrite substring_from_bearer.
    unfold getUserRoleFromToken.
    destruct (String.eqb_spec token ""); [done|].
    unfold cleanToken. rewrite Hplain.
    unfold Auth.role_payload. rewrite Hv. simpl. by rewrite Hrole. }
  pose proof (ServerFacts.admission_admin _ _ st now req Hadmin) as Hadm.
  split_and!; [exact Hadmin | exact Hadm | apply ServerFacts.handed_on_cases |].
  intros Hdecoded. rewrite Hadm. unfold handed_on. by rewrite Hdecoded.
Qed.

(** X14. The rate limiters run before the cookie parser, so they never see
    the session cookie.  A request without a [Bearer] header whose session
    cookie holds a valid admin token passes the guards of the admin routes,
    but the limiters resolve it to "anonymous": when not bypassed it is
    counted by the anonymous limiter, against the ceiling of 100, like a
    request without any credential. *)
Theorem cookie_admin_is_limited_as_anonymous
    (st : Limiters) (now : Z) (req : Request) (jar : gmap string string)
    (token p : string) (payload : Payload)
    (Hnotparsed : req_cookies req = None)
    (Hnobearer : forall h, req_authorization req = Some h ->
                           JS.startsWith h "Bearer " = false)
    (Hcookie : jar !! "session_id" = Some token)
    (Hnonempty : token <> "")
    (Hverified : jwt_verify token JWT_SECRET_KEY = JS.Ok payload)
    (Hrole : payload_userRole payload = Some "admin")
    (Hmount : mount "/api/" (req_path req) = Some p)
    (Hbypass : is_bypass_path p = false) :
  admin_only (cookieParser jar req)
  = JS.Ok (Granted {| id_userId := payload_userId payload;
                      id_userRole := Some "admin" |}) /\
  role_of req = JS.Ok "anonymous" /\
  role_layer st now req
  = JS.Ok (with_anonStore st
             ((increment anonLimiter (anonStore st) (req_ip req) now).1,
              verdict anonLimiter
                (increment anonLimiter (anonStore st) (req_ip req) now).2)) /\
  max anonLimiter = 100.
Proof.
  assert (Hbearer :
    match req_authorization req with
    | Some authHeader => JS.startsWith authHeader "Bearer "
    | None => false
    end = false).
  { destruct (req_authorization req) as [h|] eqn:Hh; [|done].
    by apply Hnobearer. }
  assert (Hanon : role_of req = JS.Ok "anonymous").
  { unfold Server.role_of, extract_token. by rewrite Hbearer, Hnotparsed. }
  split_and!; [| exact Hanon | | reflexivity].
  - apply (AuthFacts.admin_only_grants_exactly_admins
             JWT_SECRET_KEY jwt_verify).
    exists token, payload. split_and!; try done.
    unfold read_token. cbn [cookieParser req_authorization req_cookies].
    destruct (req_authorization req) as [h|] eqn:Hh.
    + rewrite (Hnobearer h eq_refl). rewrite andb_false_r.
      by rewrite Hcookie.
    + by rewrite Hcookie.
  - apply (ServerFacts.role_layer_gated _ _ _ _ _ "anonymous" (req_ip req));
      [discriminate|].
    split_and!; eauto.
Qed.

End WithJwt.

(** A verifier for the examples: [root] is an admin token. *)
Lemma granted_bearer_is_never_limited_witness :
  let verify token key :=
    if String.eqb token "root" then
      JS.Ok {| payload_userId := Some "u0";
               payload_userRole := Some "admin" |}
    else JS.Throw "JsonWebTokenError" in
  let req := Demo.get "/api/admin/users" (Some "Bearer root") "203.0.113.9" in
  serve (Server.admission "k" (Auth.role_payload verify)) fresh_limiters
    (Demo.burst 3 1000 req)
  = (replicate 3 (JS.Ok Next), fresh_limiters).
Proof.
  intros verify req.
  assert (Hstep : forall st,
            Server.admission "k" (Auth.role_payload verify) st 1000 req
            = JS.Ok (st, Next)).
  { intros st.
    apply (granted_bearer_is_never_limited "k" verify st 1000 req "root" ∅
             {| id_userId := Some "u0"; id_userRole := Some "admin" |});
      reflexivity. }
  unfold Demo.burst. simpl replicate.
  rewrite !(ServerFacts.serve_cons_ok _ _ _ _ _ _ _ (Hstep _)).
  reflexivity.
Defined.

Lemma cookie_admin_is_limited_as_anonymous_witness :
  let verify token key :=
    if String.eqb token "root" then
      JS.Ok {| payload_userId := Some "u0";
               payload_userRole := Some "admin" |}
    else JS.Throw "JsonWebTokenError" in
  let req := Demo.get "/api/admin/users" None "203.0.113.9" in
  Auth.admin_only "k" verify (cookieParser {[ "session_id" := "root" ]} req)
  = JS.Ok (Granted {| id_userId := Some "u0"; id_userRole := Some "admin" |})
  /\
  Server.role_of "k" (Auth.role_payload verify) req = JS.Ok "anonymous".
Proof.
  intros verify req.
  assert (Hnobearer : forall h, req_authorization req = Some h ->
                                JS.startsWith h "Bearer " = false)
    by discriminate.
  assert (Hne : "root" <> "") by discriminate.
  assert (Hjar : ({[ "session_id" := "root" ]} : gmap string string)
                   !! "session_id" = Some "root")
    by apply lookup_singleton_eq.
  destruct (cookie_admin_is_limited_as_anonymous "k" verify
              fresh_limiters 1000 req {[ "session_id" := "root" ]}
              "root" "/admin/users"
              {| payload_userId := Some "u0";
                 payload_userRole := Some "admin" |}
              eq_refl Hnobearer Hjar Hne eq_refl eq_refl eq_refl eq_refl)
    as (Hguard & Hrole & _).
  split; [exact Hguard | exact Hrole].
Defined.

End AdmissionVsGuards.

(* ===================================================================== *)
(** ** Properties of the rate limiting: what a request can touch *)
(* ===================================================================== *)

Module ServerViewsFacts.
Import Express Server ServerViews.

Section WithJwt.
Variable JWT_SECRET_KEY : string.
Variable jwt_verify : string -> string -> JS.result JwtPayload.

Abbreviation role_of := (Server.role_of JWT_SECRET_KEY jwt_verify).
Abbreviation admission := (Server.admission JWT_SECRET_KEY jwt_verify).
Abbreviation layers := (ServerViews.layers JWT_SECRET_KEY jwt_verify).
Abbreviation payment_step :=
  (ServerViews.payment_step JWT_SECRET_KEY jwt_verify).

(** Both layers, for a request whose credential resolves to [role]. *)
Lemma admission_layers st now req role :
  role_of req = JS.Ok role ->
  admission st now req = JS.Ok (layers role st now req).
Proof.
  intros Hrole.
  assert (Hpay : forall st0,
    use "/api/hotels/*/bookings/payment-intent"
      (Server.paymentLimiter JWT_SECRET_KEY jwt_verify) st0 now req
    = JS.Ok (if payment_counted role req then payment_step st0 now req
             else (st0, handed_on req))).
  { intros st0. rewrite ServerFacts.use_payment. unfold payment_counted.
    destruct (mount _ (req_path req)) as [p|] eqn:Hp; [|done].
    rewrite (ServerFacts.paymentLimiter_role _ _ _ _ _ role) by done.
    rewrite (ServerFacts.handed_on_payment _ _ Hp).
    by destruct (String.eqb role "admin"). }
  unfold Server.admission, ServerViews.layers, role_counted.
  rewrite ServerFacts.use_api.
  destruct (mount "/api/" (req_path req)) as [p|].
  - rewrite (ServerFacts.roleBasedRateLimiter_role _ _ _ _ _ role) by done.
    cbn [req_path with_path req_ip].
    destruct (is_bypass_path p); cbn [negb andb JS.bind fst snd];
      [apply Hpay|].
    destruct (String.eqb role "admin"); cbn [negb JS.bind fst snd];
      [apply Hpay|].
    cbv zeta. cbn [JS.bind fst snd].
    destruct (verdict (role_limiter role) _); [apply Hpay | done..].
  - cbn [JS.bind fst snd]. apply Hpay.
Qed.

(** *** Locality of the memory store *)

Lemma increment_local (o : Options) (s1 s2 : Store) (k : option string)
    (now : Z) :
  s1 !! k = s2 !! k ->
  (increment o s1 k now).2 = (increment o s2 k now).2.
Proof. intros H. unfold increment. simpl. by rewrite H. Qed.

Lemma increment_lookup (o : Options) (s : Store) (k k' : option string)
    (now : Z) :
  (increment o s k now).1 !! k'
  = if decide (k = k') then Some (increment o s k now).2 else s !! k'.
Proof. unfold increment. simpl. apply lookup_insert. Qed.

Lemma view_set_role_store role st store k :
  client_view k (set_role_store role st store)
  = [ (if String.eqb role "hotel_owner" then store else hotelOwnerStore st)
        !! k;
      (if String.eqb role "hotel_owner" then userStore st
       else if String.eqb role "user" then store else userStore st) !! k;
      (if String.eqb role "hotel_owner" then anonStore st
       else if String.eqb role "user" then anonStore st else store) !! k;
      paymentStore st !! k ].
Proof. unfold client_view, set_role_store. by repeat case_match. Qed.

Lemma view_payment_step st now req k :
  client_view k (payment_step st now req).1
  = [ hotelOwnerStore st !! k; userStore st !! k; anonStore st !! k;
      (increment (paymentLimiter_options JWT_SECRET_KEY jwt_verify)
         (paymentStore st) (req_ip req) now).1 !! k ].
Proof. reflexivity. Qed.

Lemma role_store_view role st1 st2 k :
  client_view k st1 = client_view k st2 ->
  role_store role st1 !! k = role_store role st2 !! k /\
  paymentStore st1 !! k = paymentStore st2 !! k.
Proof.
  unfold client_view, role_store. intros [= H1 H2 H3 H4].
  by repeat case_match.
Qed.

(** A request leaves alone what the limiters hold for other addresses. *)
Lemma layers_frame role st now req k :
  req_ip req <> k ->
  client_view k (layers role st now req).1 = client_view k st.
Proof.
  intros Hk.
  assert (Hrole : forall st0,
    client_view k
      (set_role_store role st0
         (increment (role_limiter role) (role_store role st0)
            (req_ip req) now).1)
    = client_view k st0).
  { intros st0. rewrite view_set_role_store. unfold client_view, role_store.
    repeat case_match; rewrite ?increment_lookup, ?decide_False by done;
      done. }
  assert (Hpay : forall st0,
    client_view k (payment_step st0 now req).1 = client_view k st0).
  { intros st0. rewrite view_payment_step.
    by rewrite increment_lookup, decide_False by done. }
  unfold ServerViews.layers. generalize (handed_on req). intros handed.
  destruct (role_counted role req).
  - cbv zeta. destruct (verdict (role_limiter role) _); cbn [fst].
    + destruct (payment_counted role req); cbn [fst].
      * by rewrite Hpay, Hrole.
      * apply Hrole.
    + apply Hrole.
    + apply Hrole.
  - destruct (payment_counted role req); [apply Hpay | done].
Qed.

(** What a request gets, and what it leaves behind for its own address,
    depends only on what the limiters held for that address. *)
Lemma layers_local role st1 st2 now req :
  client_view (req_ip req) st1 = client_view (req_ip req) st2 ->
  (layers role st1 now req).2 = (layers role st2 now req).2 /\
  client_view (req_ip req) (layers role st1 now req).1
  = client_view (req_ip req) (layers role st2 now req).1.
Proof.
  intros Hview.
  assert (Hpay : forall sa sb,
    client_view (req_ip req) sa = client_view (req_ip req) sb ->
    (payment_step sa now req).2 = (payment_step sb now req).2 /\
    client_view (req_ip req) (payment_step sa now req).1
    = client_view (req_ip req) (payment_step sb now req).1).
  { intros sa sb Hab.
    destruct (role_store_view "user" sa sb _ Hab) as [_ Hp].
    unfold client_view in Hab. injection Hab as H1 H2 H3 H4.
    split.
    - unfold ServerViews.payment_step. cbv zeta. cbn [snd].
      by rewrite (increment_local _ _ _ _ _ Hp).
    - rewrite !view_payment_step, !increment_lookup, !decide_True by done.
      by rewrite H1, H2, H3, (increment_local _ _ _ _ _ Hp). }
  assert (Hrole :
    client_view (req_ip req)
      (set_role_store role st1
         (increment (role_limiter role) (role_store role st1)
            (req_ip req) now).1)
    = client_view (req_ip req)
        (set_role_store role st2
           (increment (role_limiter role) (role_store role st2)
              (req_ip req) now).1)).
  { destruct (role_store_view role st1 st2 _ Hview) as [Hr _].
    rewrite !view_set_role_store.
    unfold client_view in Hview. injection Hview as H1 H2 H3 H4.
    destruct (String.eqb role "hotel_owner"), (String.eqb role "user");
      rewrite ?increment_lookup, ?decide_True by done;
      rewrite ?(increment_local _ _ _ _ _ Hr); congruence. }
  destruct (role_store_view role st1 st2 _ Hview) as [Hr _].
  unfold ServerViews.layers. generalize (handed_on req). intros handed.
  destruct (role_counted role req).
  - cbv zeta. rewrite (increment_local _ _ _ _ _ Hr).
    destruct (verdict (role_limiter role) _); cbn [fst snd].
    + destruct (payment_counted role req); cbn [fst snd].
      * by apply Hpay.
      * by split.
    + by split.
    + by split.
  - destruct (payment_counted role req); [by apply Hpay | by split].
Qed.

Lemma serve_cons_layers st now req rest :
  exists role,
    role_of req = JS.Ok role /\
    serve admission st ((now, req) :: rest)
    = (JS.Ok (layers role st now req).2
         :: (serve admission (layers role st now req).1 rest).1,
       (serve admission (layers role st now req).1 rest).2).
Proof.
  destruct (ServerFacts.getUserRoleFromToken_total JWT_SECRET_KEY jwt_verify
              (extract_token req)) as [role Hrole].
  exists role. split; [exact Hrole|].
  pose proof (admission_layers st now req role Hrole) as Hstep.
  destruct (layers role st now req) as [st' out].
  by rewrite (ServerFacts.serve_cons_ok _ _ _ _ _ _ _ Hstep).
Qed.

(** X15. Client addresses do not interfere.  In any sequence of requests,
    at any times and with any credentials and paths, the outcomes of the
    requests of one address are exactly the outcomes those requests would
    have had if the requests of all other addresses had never been made. *)
Theorem clients_do_not_interfere
    (key : option string) (st : Limiters) (trace : list (Z * Request)) :
  client_outcomes key trace (serve admission st trace).1
  = (serve admission st (from_client key trace)).1.
Proof.
  assert (Hgen : forall tr st1 st2,
    client_view key st1 = client_view key st2 ->
    client_outcomes key tr (serve admission st1 tr).1
    = (serve admission st2 (from_client key tr)).1);
    [|by apply Hgen].
  induction tr as [|[now req] rest IH]; intros st1 st2 Hview; [done|].
  destruct (serve_cons_layers st1 now req rest) as (role & Hrole & ->).
  unfold client_outcomes, from_client. cbn [fst zip zip_with].
  rewrite !filter_cons. cbn [fst snd].
  destruct (decide (req_ip req = key)) as [<-|Hne].
  - destruct (serve_cons_layers st2 now req
                (filter (fun tr => req_ip tr.2 = req_ip req) rest))
      as (role' & Hrole' & ->).
    assert (role' = role) as -> by congruence.
    destruct (layers_local role st1 st2 now req Hview) as [Hout Hview'].
    cbn [fmap list_fmap fst]. rewrite Hout. f_equal.
    by apply IH.
  - apply IH. rewrite <- Hview. by apply layers_frame.
Qed.

(** *** The limiters of different roles *)

Lemma role_store_other_bucket role role' st store :
  role_limiter role' <> role_limiter role ->
  role_store role (set_role_store role' st store) = role_store role st.
Proof.
  unfold role_limiter, role_store, set_role_store. intros Hne.
  destruct (String.eqb role' "hotel_owner"), (String.eqb role' "user"),
    (String.eqb role "hotel_owner"), (String.eqb role "user");
    try reflexivity; by destruct Hne.
Qed.

Lemma role_store_payment_step role st now req :
  role_store role (payment_step st now req).1 = role_store role st.
Proof. unfold role_store. by repeat case_match. Qed.

Lemma layers_other_bucket role role' st now req :
  role_limiter role' <> role_limiter role ->
  role_store role (layers role' st now req).1 = role_store role st.
Proof.
  intros Hne. unfold ServerViews.layers.
  generalize (handed_on req). intros handed.
  destruct (role_counted role' req).
  - cbv zeta. destruct (verdict (role_limiter role') _); cbn [fst].
    + destruct (payment_counted role' req); cbn [fst].
      * by rewrite role_store_payment_step, role_store_other_bucket.
      * by apply role_store_other_bucket.
    + by apply role_store_other_bucket.
    + by apply role_store_other_bucket.
  - destruct (payment_counted role' req); [|reflexivity].
    apply role_store_payment_step.
Qed.

Lemma layers_outcome_bucket role st1 st2 now req :
  payment_counted role req = false ->
  role_store role st1 = role_store role st2 ->
  (layers role st1 now req).2 = (layers role st2 now req).2.
Proof.
  intros Hpay Hstore. unfold ServerViews.layers. rewrite Hpay, Hstore.
  generalize (handed_on req). intros handed.
  destruct (role_counted role req); [|done].
  cbv zeta. by destruct (verdict (role_limiter role) _).
Qed.

(** X16. The ceilings of different roles are separate budgets, also for
    one client address.  Whatever requests were served before under
    credentials that select another role limiter, from whatever address, a
    request outside the payment-intent route is answered as if none of them
    had been made. *)
Theorem role_ceilings_are_separate_budgets
    (st : Limiters) (others : list (Z * Request)) (now : Z) (req : Request)
    (role : string) :
  role_of req = JS.Ok role ->
  payment_counted role req = false ->
  Forall (fun tr => exists role', role_of tr.2 = JS.Ok role' /\
                      role_limiter role' <> role_limiter role) others ->
  outcome_of (admission (serve admission st others).2 now req)
  = outcome_of (admission st now req).
Proof.
  intros Hrole Hpay Hothers.
  rewrite !(admission_layers _ _ _ _ Hrole).
  unfold outcome_of.
  destruct (layers role (serve admission st others).2 now req)
    as [sa oa] eqn:Ea.
  destruct (layers role st now req) as [sb ob] eqn:Eb.
  f_equal. change oa with (sa, oa).2. change ob with (sb, ob).2.
  rewrite <- Ea, <- Eb. clear Ea Eb sa oa sb ob.
  apply layers_outcome_bucket; [done|].
  revert st. induction Hothers as [|[t r] rest (role' & Hr & Hne) _ IH];
    intros st; [done|].
  destruct (serve_cons_layers st t r rest) as (role'' & Hr' & ->).
  cbn [snd] in Hr |- *. assert (role'' = role') as -> by congruence.
  rewrite IH. by apply layers_other_bucket.
Qed.

Lemma layers_unknown_role role st now req :
  role <> "admin" -> role <> "hotel_owner" -> role <> "user" ->
  layers role st now req = layers "anonymous" st now req.
Proof.
  intros Ha Ho Hu.
  apply String.eqb_neq in Ha, Ho, Hu.
  unfold ServerViews.layers, role_counted, payment_counted, role_limiter,
    role_store, set_role_store.
  rewrite Ha, Ho, Hu. reflexivity.
Qed.

Lemma layers_same_path_and_address role st now req1 req2 :
  req_path req1 = req_path req2 -> req_ip req1 = req_ip req2 ->
  layers role st now req1 = layers role st now req2.
Proof.
  intros Hp Hi.
  unfold ServerViews.layers, ServerViews.payment_step, role_counted,
    payment_counted, handed_on.
  by rewrite Hp, Hi.
Qed.

(** X17. A verified credential whose role is none of ["admin"],
    ["hotel_owner"] and ["user"] is limited exactly as no credential at all:
    a request carrying it and a request without a verifiable credential, for
    the same path from the same address, get the same answer and leave the
    same counters. *)
Theorem unknown_role_is_limited_as_anonymous
    (st : Limiters) (now : Z) (req anon : Request) (role : string) :
  role_of req = JS.Ok role ->
  role <> "admin" -> role <> "hotel_owner" -> role <> "user" ->
  role_of anon = JS.Ok "anonymous" ->
  req_path anon = req_path req -> req_ip anon = req_ip req ->
  admission st now req = admission st now anon.
Proof.
  intros Hrole Ha Ho Hu Hanon Hp Hi.
  rewrite (admission_layers _ _ _ _ Hrole), (admission_layers _ _ _ _ Hanon).
  rewrite layers_unknown_role by done.
  f_equal. by apply layers_same_path_and_address.
Qed.

End WithJwt.

Lemma role_ceilings_are_separate_budgets_witness :
  outcome_of
    (Server.admission Demo.secret Demo.verify
       (serve (Server.admission Demo.secret Demo.verify) fresh_limiters
          (Demo.burst 400 5
             (Demo.get "/api/hotels" Demo.as_user "203.0.113.7"))).2
       6 (Demo.get "/api/hotels" None "203.0.113.7"))
  = outcome_of
      (Server.admission Demo.secret Demo.verify fresh_limiters 6
         (Demo.get "/api/hotels" None "203.0.113.7")).
Proof.
  apply (role_ceilings_are_separate_budgets Demo.secret Demo.verify
           fresh_limiters _ 6 _ "anonymous").
  - reflexivity.
  - reflexivity.
  - apply Forall_forall. intros tr Hin.
    apply elem_of_replicate in Hin as [-> _].
    exists "user". split; [reflexivity|]. discriminate.
Defined.

Lemma unknown_role_is_limited_as_anonymous_witness :
  let verify := fun (_ _ : string) =>
    JS.Ok {| userRole := Some "manager" |} in
  Server.admission Demo.secret verify fresh_limiters 5
    (Demo.get "/api/hotels" (Some "Bearer t") "203.0.113.7")
  = Server.admission Demo.secret verify fresh_limiters 5
      (Demo.get "/api/hotels" None "203.0.113.7").
Proof.
  intros verify.
  apply (unknown_role_is_limited_as_anonymous Demo.secret verify
           fresh_limiters 5 _ _ "manager");
    first [reflexivity | discriminate].
Defined.

End ServerViewsFacts.

(* ===================================================================== *)
(** ** The allowed origins *)
(* ===================================================================== *)

Module CorsFacts.
Import Cors.

Lemma includes_occurs (o s : string) :
  JS.includes o s = true <-> ActivityQueries.occurs_in s o.
Proof. apply ActivityQueriesFacts.includes_spec. Qed.

Lemma allowedOrigins_elem (FRONTEND_URL : option string) (o : string) :
  o ∈ allowedOrigins FRONTEND_URL ->
  (FRONTEND_URL = Some o /\ o <> "") \/
  JS.includes o "netlify.app" || JS.includes o "vercel.app"
    || JS.includes o "localhost" = true.
Proof.
  unfold allowedOrigins. destruct FRONTEND_URL as [f|]; cbn.
  - destruct (String.eqb_spec f ""); cbn;
      rewrite ?elem_of_cons, elem_of_nil;
      intros H; decompose [or] H; subst; (try by right); (try by left);
      done.
  - rewrite !elem_of_cons, elem_of_nil.
    intros H; decompose [or] H; subst; (try by right); done.
Qed.

(** X18. What the origin check comes to.  A request is let through exactly
    when it names no origin, or its origin contains one of ["netlify.app"],
    ["vercel.app"], ["onrender.com"] and ["localhost"] anywhere, or is the
    configured front-end address; every other origin is refused with
    ["Not allowed by CORS"].  The six addresses written out in the list of
    allowed origins never decide anything. *)
Theorem origin_decision (FRONTEND_URL : option string) (o : string) :
  (origin FRONTEND_URL (Some o) = JS.Ok true <->
     o = "" \/
     (exists s, s ∈ open_substrings /\ ActivityQueries.occurs_in s o) \/
     FRONTEND_URL = Some o) /\
  (origin FRONTEND_URL (Some o) = JS.Ok true \/
   origin FRONTEND_URL (Some o) = JS.Throw "Not allowed by CORS").
Proof.
  unfold origin, open_substrings.
  destruct (String.eqb_spec o "") as [->|Hne].
  { split; [|by left]. split; [by left | done]. }
  destruct (JS.includes o "netlify.app") eqn:Hn.
  { split; [|by left]. split; [|done]. intros _. right; left.
    exists "netlify.app". split; [|by apply includes_occurs].
    rewrite !elem_of_cons. tauto. }
  destruct (JS.includes o "vercel.app") eqn:Hv.
  { split; [|by left]. split; [|done]. intros _. right; left.
    exists "vercel.app". split; [|by apply includes_occurs].
    rewrite !elem_of_cons. tauto. }
  destruct (JS.includes o "onrender.com") eqn:Hr.
  { split; [|by left]. split; [|done]. intros _. right; left.
    exists "onrender.com". split; [|by apply includes_occurs].
    rewrite !elem_of_cons. tauto. }
  destruct (JS.includes o "localhost") eqn:Hl.
  { split; [|by left]. split; [|done]. intros _. right; left.
    exists "localhost". split; [|by apply includes_occurs].
    rewrite !elem_of_cons. tauto. }
  cbn [orb].
  destruct (JS.array_includes (allowedOrigins FRONTEND_URL) o) eqn:Ha.
  - split; [|by left]. split; [|done]. intros _.
    apply ActivityQueriesFacts.array_includes_spec in Ha.
    apply allowedOrigins_elem in Ha as [[-> _]|Hlit]; [by right; right|].
    rewrite Hn, Hv, Hl in Hlit. done.
  - split; [|by right]. split; [done|].
    intros [ -> |[(s & Hs & Hocc)| -> ]]; [done| |].
    + apply includes_occurs in Hocc.
      rewrite !elem_of_cons, elem_of_nil in Hs.
      decompose [or] Hs; subst; first [done | congruence].
    + assert (o ∈ allowedOrigins (Some o)) as Hin.
      { unfold allowedOrigins. cbn.
        apply String.eqb_neq in Hne. rewrite Hne. cbn.
        apply elem_of_cons. by left. }
      apply ActivityQueriesFacts.array_includes_spec in Hin. congruence.
Qed.

End CorsFacts.

(* ===================================================================== *)
(** ** The error handler *)
(* ===================================================================== *)

Module ErrorHandlerFacts.
Import Express ErrorHandler.

Lemma or_number_some (a : option Z) (n : Z) :
  n <> 0 -> exists m, or_number a (Some n) = Some m /\ m <> 0.
Proof.
  intros Hn. unfold or_number. destruct a as [k|]; [|by exists n].
  destruct (Z.eqb_spec k 0); [by exists n | by exists k].
Qed.

(** X19. How an [AppError] is answered.  The status sent is the one the
    error was built with, except that a missing status and the status [0]
    both become [500]; the message is the error's, except that an empty one
    becomes ["Internal Server Error"]; and outside development the answer
    carries neither the details, nor the stack, nor the request path,
    whatever the error holds.  For any error at all, also none, the status
    sent is not [0], and the error is logged as a server error exactly when
    that status is [500] or more. *)
Theorem AppError_answer
    (NODE_ENV : option string) (message : string) (statusCode : option Z)
    (details : option string) (stack : string) (err : option ApiError)
    (req : Request) (now : Z) :
  let r := errorHandler NODE_ENV
             (Some (AppError message statusCode details stack)) req now in
  let any := errorHandler NODE_ENV err req now in
  res_status r = match statusCode with
                 | Some 0 | None => 500
                 | Some code => code
                 end /\
  res_message r = (if String.eqb message "" then "Internal Server Error"
                   else message) /\
  (if bool_decide (NODE_ENV = Some "development")
   then res_details r = details /\ res_stack r = Some stack /\
        res_path r = Some (req_path req)
   else res_details any = None /\ res_stack any = None /\
        res_path any = None) /\
  res_status any <> 0 /\
  (res_level any = ConsoleError <-> 500 <= res_status any).
Proof.
  cbv zeta. split_and!.
  - unfold errorHandler, AppError. cbn.
    destruct statusCode as [[|p|p]|]; reflexivity.
  - reflexivity.
  - unfold errorHandler. by destruct (bool_decide _).
  - unfold errorHandler. cbn [res_status].
    destruct (or_number_some
                (or_number (err ≫= err_statusCode) (err ≫= err_status)) 500)
      as (m & -> & Hm); done.
  - unfold errorHandler. cbn [res_status res_level].
    destruct (Z.leb_spec 500
      (default 500
         (or_number (or_number (err ≫= err_statusCode) (err ≫= err_status))
            (Some 500)))); split; (done || lia).
Qed.

End ErrorHandlerFacts.
